(** * detect_person.py: presence tracking, alert dispatch and notification cooldown

    A shallow embedding of the monitoring script [src/detect_person.py].

    The script is one straight-line loop over camera frames.  Everything it
    gets from outside (the camera, the detector, the two clocks, the drawing,
    file, popup and window calls, the keyboard) is collected per iteration in
    a [Tick]: what each external call answers if the iteration reaches it.
    Everything it does to the outside is recorded, in program order, as a
    list of [Effect]s.  The three module-level variables the loop assigns
    ([person_detected_previously], [last_notification_time] and
    [annotated_frame]) form the [State].

    Readings of [time.time()] are modelled as exact rationals (seconds); the
    rounding of binary floating point is not modelled. *)

From Stdlib Require Import List Bool Arith ZArith NArith QArith Lia Lqa.
From Stdlib Require Import Ascii String.
Import ListNotations.

Close Scope Q_scope.
Open Scope string_scope.
Open Scope list_scope.

(** ** Data *)

(** A camera image.  The script never looks inside one, so the model only
    tells images apart. *)
Definition Frame := nat.

(** One detected bounding box; only the number of boxes is ever used. *)
Definition Box := nat.

(** An element of the list returned by [model(frame, ...)]. *)
Record Results := { boxes : list Box }.

(** What can be handed to [cv2.imwrite] and [cv2.imshow]: the frame as read,
    or the picture [results[0].plot()] draws from it. *)
Inductive Image :=
| Raw (frame : Frame)
| Plotted (frame : Frame) (bxs : list Box).

(** [datetime.now()]: the fields [strftime] reads. *)
Record datetime := {
  year : N; month : N; day : N;
  hour : N; minute : N; second : N;
  microsecond : N
}.

(** How an external call inside a [try] block ends.  The script discards
    the values these calls return (that of [cv2.imwrite] included), so all
    it can tell is whether the call came back or raised. *)
Inductive Outcome := returns | raises.

(** One iteration's worth of the outside world.  The three calls of the
    loop that stand outside every [try] ([cap.read()], [model(...)] and
    [cv2.waitKey(1)]) return in a [Tick]; an iteration in which one of them
    raises is described apart, by [Unguarded] and [crashing_pass] below. *)
Record Tick := {
  ret : bool;                 (* cap.read()[0] *)
  frame : Frame;              (* cap.read()[1] *)
  results : list Results;     (* model(frame, classes=..., conf=...) *)
  time_time : Q;              (* time.time() *)
  datetime_now : datetime;    (* datetime.now() *)
  plot : Outcome;             (* results[0].plot() *)
  imwrite : Outcome;          (* cv2.imwrite(photo_filename, annotated_frame) *)
  imwrite_value : bool;       (* what cv2.imwrite returns when it returns:
                                 False when the file could not be written *)
  notify : Outcome;           (* notification.notify(...) *)
  imshow : Outcome;           (* cv2.imshow(title, display_frame) *)
  waitKey : Z                 (* cv2.waitKey(1) *)
}.

Inductive Level := INFO | WARNING | ERROR.

(** The log lines of the loop and of the clean-up, one constructor per
    literal of the script (source line in brackets). *)
Inductive Message :=
| msg_cannot_read_frame                    (* [87]  *)
| msg_person_detected (n : nat)            (* [106] the count is interpolated *)
| msg_photo_saved (photo_filename : string)(* [115] *)
| msg_photo_failed                         (* [117] *)
| msg_notification_sent                    (* [130] *)
| msg_notification_failed                  (* [132] *)
| msg_notification_skipped                 (* [134] *)
| msg_person_left                          (* [142] *)
| msg_display_failed                       (* [157] *)
| msg_quit_key                             (* [163] *)
| msg_released                             (* [169] *)
| msg_script_end.                          (* [170] *)

(** What the script does to the outside, in program order. *)
Inductive Effect :=
| Read (ok : bool)                                   (* cap.read() *)
| Log (lvl : Level) (msg : Message)                  (* logging.info/warning/error *)
| CallPlot (o : Outcome)                             (* results[0].plot() *)
| CallImwrite (photo_filename : string) (img : Image) (o : Outcome)
| CallNotify (o : Outcome)                           (* notification.notify *)
| CallImshow (img : Image) (o : Outcome)             (* cv2.imshow *)
| CallWaitKey                                        (* cv2.waitKey(1) *)
| CapRelease                                         (* cap.release() *)
| DestroyAllWindows.                                 (* cv2.destroyAllWindows() *)

(** The variables the loop assigns.  [annotated_frame] is [None] until its
    first assignment: reading it then raises [NameError]. *)
Record State := {
  person_detected_previously : bool;
  last_notification_time : Q;
  annotated_frame : option Image
}.

(** Lines 73 to 75. *)
Definition notification_cooldown : Q := 15.

Definition initial_state : State :=
  {| person_detected_previously := false;
     last_notification_time := 0;
     annotated_frame := None |}.

(** How one pass through the loop body ends. *)
Inductive Flow :=
| Continue            (* falls through to the next iteration *)
| Break               (* one of the two [break]s *)
| Uncaught.           (* IndexError from results[0], outside every [try] *)

(** ** The snapshot file name (lines 103 and 113) *)

Definition digit (n : N) : ascii := ascii_of_N (48 + n mod 10).

(** [n] in decimal, zero-padded to [w] digits, in front of [acc]. *)
Fixpoint zero_padded (w : nat) (n : N) (acc : string) : string :=
  match w with
  | O => acc
  | S w' => zero_padded w' (n / 10) (String (digit n) acc)
  end.

(** [strftime('%Y%m%d_%H%M%S_%f')], for the four-digit years the clock
    gives. *)
Definition strftime (d : datetime) : string :=
  zero_padded 4 (year d)
   (zero_padded 2 (month d)
     (zero_padded 2 (day d)
       (String "_"
         (zero_padded 2 (hour d)
           (zero_padded 2 (minute d)
             (zero_padded 2 (second d)
               (String "_"
                 (zero_padded 6 (microsecond d) "")))))))).

(** The slice [s[:-3]]. *)
Definition drop_last3 (s : string) : string :=
  substring 0 (String.length s - 3) s.

Definition timestamp_str (d : datetime) : string := drop_last3 (strftime d).

Definition photo_dir : string := "detected_persons".

(** [os.path.join(photo_dir, f"person_{timestamp_str}.jpg")], with the POSIX
    separator. *)
Definition photo_filename (d : datetime) : string :=
  photo_dir ++ "/" ++ "person_" ++ timestamp_str d ++ ".jpg".

(** ** The loop body *)

(** Lines 95 to 97: [results and len(results[0].boxes) > 0]. *)
Definition person_detected_current_frame (rs : list Results) : bool :=
  match rs with
  | [] => false
  | r :: _ => (0 <? List.length (boxes r))%nat
  end.

(** [x > y] on clock readings. *)
Definition Qgtb (x y : Q) : bool :=
  match (x ?= y)%Q with Gt => true | _ => false end.

(** Line 121: the cooldown test. *)
Definition cooldown_over (current_time last : Q) : bool :=
  Qgtb (current_time - last)%Q notification_cooldown.

(** Lines 110 to 118: draw the boxes, write the picture.  Returns the new
    binding of [annotated_frame].  The value [cv2.imwrite] returns is not
    bound to anything: line 115 follows whenever the call comes back. *)
Definition save_photo (af : option Image) (t : Tick) (r : Results)
  : list Effect * option Image :=
  match plot t with
  | raises => ([CallPlot raises; Log ERROR msg_photo_failed], af)
  | returns =>
      let img := Plotted (frame t) (boxes r) in
      let name := photo_filename (datetime_now t) in
      match imwrite t with
      | raises =>
          ([CallPlot returns; CallImwrite name img raises;
            Log ERROR msg_photo_failed], Some img)
      | returns =>
          ([CallPlot returns; CallImwrite name img returns;
            Log INFO (msg_photo_saved name)], Some img)
      end
  end.

(** Lines 121 to 134: the popup, behind the cooldown.  Returns the new
    value of [last_notification_time]. *)
Definition send_notification (last current_time : Q) (o : Outcome)
  : list Effect * Q :=
  if cooldown_over current_time last then
    match o with
    | returns => ([CallNotify returns; Log INFO msg_notification_sent],
                  current_time)
    | raises => ([CallNotify raises; Log ERROR msg_notification_failed], last)
    end
  else ([Log INFO msg_notification_skipped], last).

(** Lines 102 to 137, with [results[0]] already fetched. *)
Definition on_arrival (st : State) (t : Tick) (r : Results)
  : list Effect * State :=
  let current_time := time_time t in
  let log_message := msg_person_detected (List.length (boxes r)) in
  let '(photo_effects, af) := save_photo (annotated_frame st) t r in
  let '(popup_effects, last) :=
    send_notification (last_notification_time st) current_time (notify t) in
  (Log INFO log_message :: photo_effects ++ popup_effects,
   {| person_detected_previously := true;
      last_notification_time := last;
      annotated_frame := af |}).

(** Lines 142 and 143. *)
Definition on_departure (st : State) : list Effect * State :=
  ([Log INFO msg_person_left],
   {| person_detected_previously := false;
      last_notification_time := last_notification_time st;
      annotated_frame := annotated_frame st |}).

(** Lines 147 to 157.  [st] is the state after the branches above. *)
Definition show (st : State) (t : Tick) (detected : bool) : list Effect :=
  let display_frame :=
    if detected then annotated_frame st else Some (Raw (frame t)) in
  match display_frame with
  | None => [Log ERROR msg_display_failed]        (* NameError, caught *)
  | Some img =>
      match imshow t with
      | returns => [CallImshow img returns]
      | raises => [CallImshow img raises; Log ERROR msg_display_failed]
      end
  end.

(** Line 162: [cv2.waitKey(1) & 0xFF == ord('q')]. *)
Definition quit_requested (key : Z) : bool := (Z.land key 255 =? 113)%Z.

(** Lines 160 to 164. *)
Definition exit_check (t : Tick) : list Effect * Flow :=
  if quit_requested (waitKey t)
  then ([CallWaitKey; Log INFO msg_quit_key], Break)
  else ([CallWaitKey], Continue).

(** Lines 100 to 143: the two transition branches. *)
Definition transition (st : State) (t : Tick) : option (list Effect * State) :=
  let detected := person_detected_current_frame (results t) in
  if detected && negb (person_detected_previously st) then
    match results t with
    | r :: _ => Some (on_arrival st t r)
    | [] => None                                  (* IndexError on results[0] *)
    end
  else if negb detected && person_detected_previously st then
    Some (on_departure st)
  else Some ([], st).

(** Lines 82 to 164: one iteration in which [cap.read()], [model(...)] and
    [cv2.waitKey(1)] return. *)
Definition loop_body (st : State) (t : Tick) : list Effect * State * Flow :=
  if negb (ret t) then
    ([Read false; Log WARNING msg_cannot_read_frame], st, Break)
  else
    match transition st t with
    | None => ([Read true], st, Uncaught)
    | Some (branch_effects, st') =>
        let detected := person_detected_current_frame (results t) in
        let '(exit_effects, flow) := exit_check t in
        (Read true :: branch_effects ++ show st' t detected ++ exit_effects,
         st', flow)
    end.

(** Lines 81 to 164: [while True], over the iterations the world provides.
    When they run out the loop is still running ([Continue]). *)
Fixpoint main_loop (st : State) (ticks : list Tick)
  : list Effect * State * Flow :=
  match ticks with
  | [] => ([], st, Continue)
  | t :: rest =>
      match loop_body st t with
      | (es, st', Continue) =>
          let '(es', st'', flow) := main_loop st' rest in
          (es ++ es', st'', flow)
      | stopped => stopped
      end
  end.

(** Lines 166 to 170. *)
Definition cleanup : list Effect :=
  [CapRelease; DestroyAllWindows; Log INFO msg_released; Log INFO msg_script_end].

(** Lines 73 to 170: the session from the first iteration on. *)
Definition session (ticks : list Tick) : list Effect :=
  match main_loop initial_state ticks with
  | (es, _, Break) => es ++ cleanup
  | (es, _, _) => es
  end.

(** ** Reading a run *)

(** One executed pass through the loop body. *)
Record Iteration := {
  before : State;
  tick : Tick;
  effects : list Effect;
  after : State;
  flow : Flow
}.

(** The passes [main_loop] makes, in order; the last one is the pass that
    left the loop, if any did. *)
Fixpoint iterations (st : State) (ticks : list Tick) : list Iteration :=
  match ticks with
  | [] => []
  | t :: rest =>
      let '(es, st', fl) := loop_body st t in
      {| before := st; tick := t; effects := es; after := st'; flow := fl |}
      :: match fl with
         | Continue => iterations st' rest
         | _ => []
         end
  end.

(** The presence events of the specification, as the log shows them: the
    script announces an arrival by line 107 and a departure by line 142. *)
Inductive PresenceEvent :=
| Arrived (detection_count : nat)
| Departed.

Definition presence_event (e : Effect) : option PresenceEvent :=
  match e with
  | Log INFO (msg_person_detected n) => Some (Arrived n)
  | Log INFO msg_person_left => Some Departed
  | _ => None
  end.

Fixpoint events_of (es : list Effect) : list PresenceEvent :=
  match es with
  | [] => []
  | e :: es' =>
      match presence_event e with
      | Some ev => ev :: events_of es'
      | None => events_of es'
      end
  end.

(** The detection boolean of an iteration. *)
Definition detected_now (t : Tick) : bool :=
  person_detected_current_frame (results t).

(** The number of boxes of [results[0]] ([0] when there is no [results[0]]). *)
Definition detection_count (t : Tick) : nat :=
  match results t with
  | [] => O
  | r :: _ => List.length (boxes r)
  end.

Definition is_photo_attempt (e : Effect) : bool :=
  match e with CallPlot _ => true | _ => false end.

Definition is_imwrite (e : Effect) : bool :=
  match e with CallImwrite _ _ _ => true | _ => false end.

Definition is_notify (e : Effect) : bool :=
  match e with CallNotify _ => true | _ => false end.

(** What an iteration did about the popup. *)
Inductive Popup := Delivered | DeliveryFailed | Suppressed.

Definition popup_of (e : Effect) : option Popup :=
  match e with
  | CallNotify returns => Some Delivered
  | CallNotify raises => Some DeliveryFailed
  | Log INFO msg_notification_skipped => Some Suppressed
  | _ => None
  end.

Fixpoint popups_of (es : list Effect) : list Popup :=
  match es with
  | [] => []
  | e :: es' =>
      match popup_of e with
      | Some p => p :: popups_of es'
      | None => popups_of es'
      end
  end.

(** The frames an effect list puts on the screen. *)
Fixpoint shown (es : list Effect) : list Image :=
  match es with
  | [] => []
  | CallImshow img _ :: es' => img :: shown es'
  | _ :: es' => shown es'
  end.

(** ** The cooldown gate of the specification

    Section 4.2 of the specification, word for word, for comparison with
    [send_notification]: [try_fire] answers and records at once. *)

Record CooldownState := {
  last_fired_at : option Q;
  cooldown_duration : Q
}.

Definition try_fire (c : CooldownState) (now : Q) : bool * CooldownState :=
  match last_fired_at c with
  | None =>
      (true, {| last_fired_at := Some now;
                cooldown_duration := cooldown_duration c |})
  | Some last =>
      if Qgtb (now - last)%Q (cooldown_duration c)
      then (true, {| last_fired_at := Some now;
                     cooldown_duration := cooldown_duration c |})
      else (false, c)
  end.

(** The presence flag a run holds when it enters iteration [i], read off
    the detection booleans: [False] at the start, afterwards the previous
    boolean. *)
Definition presence_entering (ds : list bool) (i : nat) : bool :=
  match i with
  | O => false
  | S j => nth j ds false
  end.

(** The state the arrival branch leaves (line 137 included). *)
Definition arrival_state (st : State) (t : Tick) (r : Results) : State :=
  {| person_detected_previously := true;
     last_notification_time :=
       snd (send_notification (last_notification_time st) (time_time t) (notify t));
     annotated_frame := snd (save_photo (annotated_frame st) t r) |}.

(** The state the departure branch leaves. *)
Definition departure_state (st : State) : State :=
  {| person_detected_previously := false;
     last_notification_time := last_notification_time st;
     annotated_frame := annotated_frame st |}.

(** The boxes of [results[0]] (none when there is no [results[0]]). *)
Definition detected_boxes (t : Tick) : list Box :=
  match results t with
  | [] => []
  | r :: _ => boxes r
  end.

(** The effects that belong to a snapshot: the drawing, the writing and the
    two log lines about it. *)
Definition is_snapshot_effect (e : Effect) : bool :=
  match e with
  | CallPlot _ | CallImwrite _ _ _ => true
  | Log _ (msg_photo_saved _) | Log _ msg_photo_failed => true
  | _ => false
  end.

(** What an iteration did, in the terms of the specification's scenarios:
    its presence events, what it did about the snapshot, and what became of
    the popup. *)
Definition summary (it : Iteration)
  : list PresenceEvent * list Effect * list Popup :=
  (events_of (effects it),
   filter is_snapshot_effect (effects it),
   popups_of (effects it)).

(** ** An exception outside every [try] (lines 83, 92 and 162)

    [cap.read()], [model(...)] and [cv2.waitKey(1)] are called outside every
    [try]: when one of them raises, the exception leaves the loop and the
    script, past lines 167 to 170. *)
Inductive Unguarded :=
| raises_in_read          (* cap.read(), line 83 *)
| raises_in_model         (* model(frame, ...), line 92 *)
| raises_in_waitKey.      (* cv2.waitKey(1), line 162 *)

(** The effects of an iteration up to the call that raises; [None] when the
    iteration does not get to that call.  Of [t] only what is read before
    the call matters. *)
Definition crashing_pass (st : State) (t : Tick) (c : Unguarded)
  : option (list Effect) :=
  match c with
  | raises_in_read => Some []
  | raises_in_model => if ret t then Some [Read true] else None
  | raises_in_waitKey =>
      if ret t then
        match transition st t with
        | Some (branch_effects, st') =>
            Some (Read true :: branch_effects ++ show st' t (detected_now t))
        | None => None
        end
      else None
  end.

(** The session in which the loop runs through [ticks] and the call [c]
    raises in the next iteration; [None] when the loop does not get
    there. *)
Definition crashing_session (ticks : list Tick) (t : Tick) (c : Unguarded)
  : option (list Effect) :=
  match main_loop initial_state ticks with
  | (es, st, Continue) =>
      match crashing_pass st t c with
      | Some es' => Some (es ++ es')
      | None => None
      end
  | _ => None
  end.

(** The [datetime] values the clock can give, with the years [strftime]
    prints in four digits. *)
Definition valid_datetime (d : datetime) : bool :=
  ((1000 <=? year d) && (year d <? 10000)
   && (1 <=? month d) && (month d <=? 12)
   && (1 <=? day d) && (day d <=? 31)
   && (hour d <? 24) && (minute d <? 60) && (second d <? 60)
   && (microsecond d <? 1000000))%N.

(** Two clock readings that agree down to the millisecond. *)
Definition same_millisecond (d1 d2 : datetime) : Prop :=
  year d1 = year d2 /\ month d1 = month d2 /\ day d1 = day d2
  /\ hour d1 = hour d2 /\ minute d1 = minute d2 /\ second d1 = second d2
  /\ (microsecond d1 / 1000 = microsecond d2 / 1000)%N.

(** ** Sample inputs *)

Definition noon : datetime :=
  {| year := 2024; month := 5; day := 17;
     hour := 12; minute := 0; second := 0; microsecond := 123400 |}.

(** An iteration in which the camera delivers frame [f], the detector finds
    [n] boxes, every external call returns and no key is pressed. *)
Definition calm_tick (f : Frame) (n : nat) (now : Q) : Tick :=
  {| ret := true; frame := f; results := [ {| boxes := repeat O n |} ];
     time_time := now; datetime_now := noon;
     plot := returns; imwrite := returns; imwrite_value := true;
     notify := returns;
     imshow := returns; waitKey := (-1)%Z |}.

(** The same, with the popup delivery raising. *)
Definition popup_failing_tick (f : Frame) (n : nat) (now : Q) : Tick :=
  {| ret := true; frame := f; results := [ {| boxes := repeat O n |} ];
     time_time := now; datetime_now := noon;
     plot := returns; imwrite := returns; imwrite_value := true;
     notify := raises;
     imshow := returns; waitKey := (-1)%Z |}.

(** A person arrives, leaves and arrives again, two seconds later. *)
Definition back_in_two_seconds : list Tick :=
  [calm_tick 1 1 100; calm_tick 2 0 101; calm_tick 3 1 102].

(** The same, with the first popup failing to be delivered. *)
Definition back_after_failed_popup : list Tick :=
  [popup_failing_tick 1 1 100; calm_tick 2 0 101; calm_tick 3 1 102].

(** The flapping scenario of the specification on a clock that starts at
    zero: detections [true, false, true, false, true] at readings 0 to 4. *)
Definition flapping_from_zero : list Tick :=
  [calm_tick 1 1 0; calm_tick 2 0 1; calm_tick 3 1 2; calm_tick 4 0 3;
   calm_tick 5 1 4].

(** A person stays in view for two frames. *)
Definition staying_in_view : list Tick :=
  [calm_tick 1 1 1700000000; calm_tick 2 2 1700000001].

(** An arrival whose snapshot cannot be written. *)
Definition unwritable_tick (f : Frame) (n : nat) (now : Q) : Tick :=
  {| ret := true; frame := f; results := [ {| boxes := repeat O n |} ];
     time_time := now; datetime_now := noon;
     plot := returns; imwrite := raises; imwrite_value := false;
     notify := returns;
     imshow := returns; waitKey := (-1)%Z |}.

(** An arrival whose snapshot is not written although [cv2.imwrite] comes
    back: it returns [False]. *)
Definition silent_failure_tick (f : Frame) (n : nat) (now : Q) : Tick :=
  {| ret := true; frame := f; results := [ {| boxes := repeat O n |} ];
     time_time := now; datetime_now := noon;
     plot := returns; imwrite := returns; imwrite_value := false;
     notify := returns;
     imshow := returns; waitKey := (-1)%Z |}.

(** An iteration in which the camera delivers nothing. *)
Definition blind_tick : Tick :=
  {| ret := false; frame := O; results := [];
     time_time := 0; datetime_now := noon;
     plot := returns; imwrite := returns; imwrite_value := true;
     notify := returns;
     imshow := returns; waitKey := (-1)%Z |}.

(** Half a millisecond after [noon]. *)
Definition just_after_noon : datetime :=
  {| year := 2024; month := 5; day := 17;
     hour := 12; minute := 0; second := 0; microsecond := 123900 |}.

(** One millisecond after [noon]. *)
Definition a_millisecond_after_noon : datetime :=
  {| year := 2024; month := 5; day := 17;
     hour := 12; minute := 0; second := 0; microsecond := 124400 |}.

(** ** Start-up (lines 9 to 79)

    What the script does before the loop: the log file, the photo
    directory, the detector and its ['person'] class, the camera.
    [os.makedirs] and [logging.basicConfig] are taken to return. *)

Definition log_dir : string := "logs".

(** [strftime('%Y%m%d')], for four-digit years. *)
Definition strftime_date (d : datetime) : string :=
  zero_padded 4 (year d) (zero_padded 2 (month d) (zero_padded 2 (day d) "")).

(** Line 15: [os.path.join(log_dir, f"detection_{...}.log")], with the POSIX
    separator. *)
Definition log_filename (d : datetime) : string :=
  log_dir ++ "/" ++ "detection_" ++ strftime_date d ++ ".log".

(** The log lines of the start-up (source line in brackets). *)
Inductive StartupMessage :=
| msg_script_start                          (* [27] *)
| msg_photo_dir (dir : string)              (* [33] *)
| msg_model_loaded                          (* [39] *)
| msg_model_failed                          (* [41] *)
| msg_no_person_class                       (* [54] *)
| msg_target_class (class_id : Z)           (* [57] *)
| msg_camera_failed                         (* [66] *)
| msg_camera_opened                         (* [69] *)
| msg_monitoring                            (* [78] *)
| msg_press_q.                              (* [79] *)

Inductive StartupEffect :=
| Makedirs (dir : string)                   (* os.makedirs(dir, exist_ok=True) *)
| BasicConfig (file : string)               (* logging.basicConfig, FileHandler *)
| StartupLog (lvl : Level) (msg : StartupMessage)
| LoadModel (o : Outcome)                   (* YOLO('yolov8n.pt') *)
| VideoCapture (opened : bool)              (* cv2.VideoCapture(0), isOpened() *)
| Exit.                                     (* exit() *)

(** What the outside world answers during the start-up.  [model_names] is
    [None] when [YOLO(...)] raises, else the items of the dictionary
    [model.names] in its own order. *)
Record Boot := {
  started : datetime;                          (* datetime.now(), line 15 *)
  model_names : option (list (Z * string));
  isOpened : bool                              (* cap.isOpened() *)
}.

(** Lines 47 to 51: the first class called ['person']. *)
Fixpoint person_class_id (items : list (Z * string)) : option Z :=
  match items with
  | [] => None
  | (class_id, class_name) :: rest =>
      if String.eqb class_name "person" then Some class_id
      else person_class_id rest
  end.

(** Lines 11 to 33. *)
Definition startup_logging (b : Boot) : list StartupEffect :=
  [Makedirs log_dir; BasicConfig (log_filename (started b));
   StartupLog INFO msg_script_start;
   Makedirs photo_dir; StartupLog INFO (msg_photo_dir photo_dir)].

(** Lines 11 to 79.  The result is [person_class_id] when the loop is
    reached and [None] when the script has exited. *)
Definition startup (b : Boot) : list StartupEffect * option Z :=
  match model_names b with
  | None =>
      (startup_logging b
       ++ [LoadModel raises; StartupLog ERROR msg_model_failed; Exit], None)
  | Some names =>
      match person_class_id names with
      | None =>
          (startup_logging b
           ++ [LoadModel returns; StartupLog INFO msg_model_loaded;
               StartupLog ERROR msg_no_person_class; Exit], None)
      | Some id =>
          if isOpened b then
            (startup_logging b
             ++ [LoadModel returns; StartupLog INFO msg_model_loaded;
                 StartupLog INFO (msg_target_class id);
                 VideoCapture true; StartupLog INFO msg_camera_opened;
                 StartupLog INFO msg_monitoring; StartupLog INFO msg_press_q],
             Some id)
          else
            (startup_logging b
             ++ [LoadModel returns; StartupLog INFO msg_model_loaded;
                 StartupLog INFO (msg_target_class id);
                 VideoCapture false; StartupLog ERROR msg_camera_failed; Exit],
             None)
      end
  end.

(** The whole script: the start-up, then the session if it is reached. *)
Inductive ProgramEffect :=
| AtStartup (e : StartupEffect)
| InLoop (e : Effect).

Definition program (b : Boot) (ticks : list Tick) : list ProgramEffect :=
  map AtStartup (fst (startup b))
  ++ match snd (startup b) with
     | Some _ => map InLoop (session ticks)
     | None => []
     end.

(** ** Further readings of a run *)

Definition is_arrival (ev : PresenceEvent) : bool :=
  match ev with Arrived _ => true | Departed => false end.

(** A sequence of presence events that takes turns, given whether a person
    is present before it. *)
Fixpoint alternates (present : bool) (evs : list PresenceEvent) : bool :=
  match evs with
  | [] => true
  | Arrived _ :: rest => negb present && alternates true rest
  | Departed :: rest => present && alternates false rest
  end.

Definition is_release (e : Effect) : bool :=
  match e with CapRelease | DestroyAllWindows => true | _ => false end.

Definition is_read (e : Effect) : bool :=
  match e with Read _ => true | _ => false end.

(** A clock reading down to the millisecond, most significant field
    first. *)
Definition millisecond_key (d : datetime) : list N :=
  [year d; month d; day d; hour d; minute d; second d;
   (microsecond d / 1000)%N].

(** The lexicographic order on such keys. *)
Fixpoint lex_lt (k1 k2 : list N) : Prop :=
  match k1, k2 with
  | x :: k1', y :: k2' => (x < y)%N \/ (x = y /\ lex_lt k1' k2')
  | _, _ => False
  end.

(** More sample inputs. *)

(** An iteration like [calm_tick] in which the key [q] is pressed. *)
Definition quitting_tick (f : Frame) (n : nat) (now : Q) : Tick :=
  {| ret := true; frame := f; results := [ {| boxes := repeat O n |} ];
     time_time := now; datetime_now := noon;
     plot := returns; imwrite := returns; imwrite_value := true;
     notify := returns;
     imshow := returns; waitKey := 113%Z |}.

(** An iteration like [calm_tick] in which every call in a [try] raises. *)
Definition stormy_tick (f : Frame) (n : nat) (now : Q) : Tick :=
  {| ret := true; frame := f; results := [ {| boxes := repeat O n |} ];
     time_time := now; datetime_now := noon;
     plot := raises; imwrite := raises; imwrite_value := false;
     notify := raises;
     imshow := raises; waitKey := (-1)%Z |}.

Definition new_year : datetime :=
  {| year := 2025; month := 1; day := 1;
     hour := 0; minute := 0; second := 0; microsecond := 0 |}.

(** The first classes of the detector's usual label set. *)
Definition coco_names : list (Z * string) :=
  [(0%Z, "person"); (1%Z, "bicycle"); (2%Z, "car")].

(** ** Basic facts *)

(** Case analysis on whatever the outside world decides in the goal. *)
Ltac by_outcomes :=
  repeat match goal with
         | |- context [plot ?t] => destruct (plot t)
         | |- context [imwrite ?t] => destruct (imwrite t)
         | |- context [imshow ?t] => destruct (imshow t)
         | |- context [quit_requested ?k] => destruct (quit_requested k)
         | |- context [cooldown_over ?x ?y] => destruct (cooldown_over x y)
         | |- context [annotated_frame ?s] => destruct (annotated_frame s)
         | |- context [match ?o with returns => _ | raises => _ end] =>
             destruct o
         end.

(** A fact about one of the four pieces of an iteration that holds in every
    case. *)
Ltac piece :=
  unfold save_photo, send_notification, show, exit_check;
  by_outcomes; simpl; try reflexivity; try (intuition discriminate).

Lemma Qgtb_true (x y : Q) : Qgtb x y = true <-> (y < x)%Q.
Proof.
  unfold Qgtb. rewrite (Qgt_alt x y).
  destruct (x ?= y)%Q; split; congruence.
Qed.

Lemma Qgtb_false (x y : Q) : Qgtb x y = false <-> (x <= y)%Q.
Proof.
  split; intro H.
  - apply Qnot_lt_le. intro L. apply Qgtb_true in L. congruence.
  - destruct (Qgtb x y) eqn:E; [|reflexivity].
    apply Qgtb_true in E. exfalso. apply (Qlt_not_le _ _ E H).
Qed.

Lemma cooldown_over_true (now last : Q) :
  cooldown_over now last = true <-> (notification_cooldown < now - last)%Q.
Proof. apply Qgtb_true. Qed.

Lemma cooldown_over_false (now last : Q) :
  cooldown_over now last = false <-> (now - last <= notification_cooldown)%Q.
Proof. apply Qgtb_false. Qed.

Lemma events_of_app (xs ys : list Effect) :
  events_of (xs ++ ys) = events_of xs ++ events_of ys.
Proof.
  induction xs as [|x xs IH]; simpl; [reflexivity|].
  destruct (presence_event x); simpl; now rewrite IH.
Qed.

Lemma popups_of_app (xs ys : list Effect) :
  popups_of (xs ++ ys) = popups_of xs ++ popups_of ys.
Proof.
  induction xs as [|x xs IH]; simpl; [reflexivity|].
  destruct (popup_of x); simpl; now rewrite IH.
Qed.

Lemma shown_app (xs ys : list Effect) :
  shown (xs ++ ys) = shown xs ++ shown ys.
Proof.
  induction xs as [|x xs IH]; simpl; [reflexivity|].
  destruct x; simpl; now rewrite ?IH.
Qed.

(** [main_loop] performs the effects of its iterations, one after the
    other. *)
Lemma main_loop_effects (ticks : list Tick) :
  forall st,
    fst (fst (main_loop st ticks))
    = List.concat (map effects (iterations st ticks)).
Proof.
  induction ticks as [|t rest IH]; intro st; simpl; [reflexivity|].
  destruct (loop_body st t) as [[es st'] fl].
  destruct fl; simpl; try now rewrite app_nil_r.
  specialize (IH st').
  destruct (main_loop st' rest) as [[es' st''] fl']. simpl in *.
  now rewrite IH.
Qed.

(** ** The loop body, branch by branch *)

Lemma detected_now_results (t : Tick) :
  detected_now t = true ->
  exists r rest,
    results t = r :: rest /\ detection_count t = List.length (boxes r)
    /\ (1 <= List.length (boxes r))%nat.
Proof.
  unfold detected_now, detection_count, person_detected_current_frame.
  destruct (results t) as [|r rest]; [discriminate|].
  intro H. apply Nat.ltb_lt in H. exists r, rest. repeat split; lia.
Qed.

Lemma transition_arrival (st : State) (t : Tick) :
  detected_now t = true -> person_detected_previously st = false ->
  exists r rest, results t = r :: rest /\ transition st t = Some (on_arrival st t r).
Proof.
  intros D P. destruct (detected_now_results t D) as (r & rest & R & _).
  exists r, rest. split; [exact R|].
  unfold transition. fold (detected_now t). rewrite D, P, R. reflexivity.
Qed.

Lemma transition_departure (st : State) (t : Tick) :
  detected_now t = false -> person_detected_previously st = true ->
  transition st t = Some (on_departure st).
Proof.
  intros D P. unfold transition. fold (detected_now t). now rewrite D, P.
Qed.

Lemma transition_steady (st : State) (t : Tick) :
  detected_now t = person_detected_previously st ->
  transition st t = Some ([], st).
Proof.
  intros D. unfold transition. fold (detected_now t). rewrite D.
  now destruct (person_detected_previously st).
Qed.

(** [results[0]] is only evaluated where it exists: no pass ends in an
    uncaught exception. *)
Lemma transition_defined (st : State) (t : Tick) : transition st t <> None.
Proof.
  destruct (detected_now t) eqn:D, (person_detected_previously st) eqn:P.
  - rewrite transition_steady; congruence.
  - destruct (transition_arrival st t D P) as (r & rest & _ & E).
    rewrite E. discriminate.
  - rewrite transition_departure; congruence.
  - rewrite transition_steady; congruence.
Qed.

Lemma loop_body_read_failure (st : State) (t : Tick) :
  ret t = false ->
  loop_body st t = ([Read false; Log WARNING msg_cannot_read_frame], st, Break).
Proof. intro R. unfold loop_body. now rewrite R. Qed.

Lemma loop_body_read_ok (st : State) (t : Tick) :
  ret t = true ->
  exists branch_effects st',
    transition st t = Some (branch_effects, st')
    /\ loop_body st t =
         (Read true :: branch_effects ++ show st' t (detected_now t)
                      ++ fst (exit_check t),
          st', snd (exit_check t)).
Proof.
  intro R. unfold loop_body. rewrite R. simpl.
  destruct (transition st t) as [[bes st']|] eqn:T.
  - exists bes, st'. split; [reflexivity|].
    fold (detected_now t). now destruct (exit_check t).
  - now destruct (transition_defined st t).
Qed.

Lemma events_of_save_photo af t r : events_of (fst (save_photo af t r)) = [].
Proof. piece. Qed.

Lemma events_of_send_notification last now o :
  events_of (fst (send_notification last now o)) = [].
Proof. piece. Qed.

Lemma events_of_show st t d : events_of (show st t d) = [].
Proof. destruct d; piece. Qed.

Lemma events_of_exit_check t : events_of (fst (exit_check t)) = [].
Proof. piece. Qed.

(** Snapshot attempts and popups, piece by piece. *)

Lemma photo_attempts_save_photo af t r :
  filter is_photo_attempt (fst (save_photo af t r)) = [CallPlot (plot t)].
Proof. unfold save_photo. now destruct (plot t), (imwrite t). Qed.

Lemma photo_attempts_send_notification last now o :
  filter is_photo_attempt (fst (send_notification last now o)) = [].
Proof. piece. Qed.

Lemma photo_attempts_show st t d : filter is_photo_attempt (show st t d) = [].
Proof. destruct d; piece. Qed.

Lemma photo_attempts_exit_check t :
  filter is_photo_attempt (fst (exit_check t)) = [].
Proof. piece. Qed.

Lemma popups_of_save_photo af t r : popups_of (fst (save_photo af t r)) = [].
Proof. piece. Qed.

Lemma popups_of_show st t d : popups_of (show st t d) = [].
Proof. destruct d; piece. Qed.

Lemma popups_of_exit_check t : popups_of (fst (exit_check t)) = [].
Proof. piece. Qed.

Create Rewrite HintDb pieces.

#[local] Hint Rewrite
  events_of_app events_of_save_photo events_of_send_notification
  events_of_show events_of_exit_check
  filter_app photo_attempts_save_photo photo_attempts_send_notification
  photo_attempts_show photo_attempts_exit_check
  popups_of_app popups_of_save_photo popups_of_show popups_of_exit_check
  app_nil_r : pieces.

Lemma on_arrival_effects (st : State) (t : Tick) (r : Results) :
  fst (on_arrival st t r) =
    Log INFO (msg_person_detected (List.length (boxes r)))
    :: fst (save_photo (annotated_frame st) t r)
    ++ fst (send_notification (last_notification_time st) (time_time t) (notify t)).
Proof.
  unfold on_arrival.
  destruct (save_photo (annotated_frame st) t r) as [pes af].
  now destruct (send_notification (last_notification_time st) (time_time t) (notify t)).
Qed.

Lemma on_arrival_state (st : State) (t : Tick) (r : Results) :
  snd (on_arrival st t r) =
    {| person_detected_previously := true;
       last_notification_time :=
         snd (send_notification (last_notification_time st) (time_time t) (notify t));
       annotated_frame := snd (save_photo (annotated_frame st) t r) |}.
Proof.
  unfold on_arrival.
  destruct (save_photo (annotated_frame st) t r) as [pes af].
  now destruct (send_notification (last_notification_time st) (time_time t) (notify t)).
Qed.

Lemma events_of_on_arrival st t r :
  events_of (fst (on_arrival st t r)) = [Arrived (List.length (boxes r))].
Proof.
  rewrite on_arrival_effects. simpl.
  now rewrite events_of_app, events_of_save_photo, events_of_send_notification.
Qed.

(** The events of one pass, and what it does to the presence flag. *)
Lemma transition_events (st : State) (t : Tick) bes st' :
  transition st t = Some (bes, st') ->
  let d := detected_now t in
  let p := person_detected_previously st in
  events_of bes =
    (if d && negb p then [Arrived (detection_count t)]
     else if negb d && p then [Departed] else [])
  /\ person_detected_previously st' = d
  /\ (d = p -> st' = st /\ bes = []).
Proof.
  intros T d p. subst d p.
  destruct (detected_now t) eqn:D, (person_detected_previously st) eqn:P; simpl.
  - rewrite transition_steady in T by congruence.
    injection T as <- <-. now rewrite P.
  - destruct (transition_arrival st t D P) as (r & rest & R & E).
    rewrite E in T. injection T as T. 
    assert (B : bes = fst (on_arrival st t r)) by now rewrite T.
    assert (S' : st' = snd (on_arrival st t r)) by now rewrite T.
    subst bes st'. rewrite events_of_on_arrival, on_arrival_state.
    unfold detection_count. rewrite R. simpl. repeat split; congruence.
  - rewrite transition_departure in T by assumption.
    injection T as <- <-. simpl. repeat split; congruence.
  - rewrite transition_steady in T by congruence.
    injection T as <- <-. now rewrite P.
Qed.

(** ** The iterations of a run *)

Lemma iterations_head (st : State) (t : Tick) (rest : list Tick) :
  exists it tl,
    iterations st (t :: rest) = it :: tl
    /\ before it = st /\ tick it = t
    /\ loop_body st t = (effects it, after it, flow it)
    /\ tl = match flow it with Continue => iterations (after it) rest | _ => [] end.
Proof.
  simpl. destruct (loop_body st t) as [[es st'] fl].
  eexists; eexists; repeat split.
Qed.

(** Every executed pass is the loop body run on its own tick from its own
    state. *)
Lemma iterations_nth (ticks : list Tick) :
  forall st i it,
    nth_error (iterations st ticks) i = Some it ->
    nth_error ticks i = Some (tick it)
    /\ loop_body (before it) (tick it) = (effects it, after it, flow it).
Proof.
  induction ticks as [|t rest IH]; intros st i it H.
  - destruct i; discriminate.
  - destruct (iterations_head st t rest) as (it0 & tl & E & B & T & L & TL).
    rewrite E in H. destruct i as [|i]; simpl in H.
    + injection H as <-. simpl. rewrite T, B. split; [reflexivity|exact L].
    + subst tl. destruct (flow it0); try (destruct i; discriminate).
      simpl. eapply IH; eassumption.
Qed.

(** The first pass starts from the state handed to the loop; every later
    pass starts from the state its predecessor left, and the predecessor
    fell through to it. *)
Lemma iterations_chain (ticks : list Tick) :
  forall st i it,
    nth_error (iterations st ticks) i = Some it ->
    match i with
    | O => before it = st
    | S j => exists it', nth_error (iterations st ticks) j = Some it'
                         /\ before it = after it' /\ flow it' = Continue
    end.
Proof.
  induction ticks as [|t rest IH]; intros st i it H.
  - destruct i; discriminate.
  - destruct (iterations_head st t rest) as (it0 & tl & E & B & T & L & TL).
    rewrite E in *. destruct i as [|i]; simpl in H.
    + now injection H as <-.
    + subst tl. destruct (flow it0) eqn:F; try (destruct i; discriminate).
      specialize (IH _ _ _ H). destruct i as [|i]; simpl.
      * exists it0. repeat split; congruence.
      * exact IH.
Qed.

(** ** C1: the presence tracker *)

Lemma loop_body_continue_read (st : State) (t : Tick) es st' :
  loop_body st t = (es, st', Continue) -> ret t = true.
Proof.
  intro L. destruct (ret t) eqn:R; [reflexivity|].
  rewrite loop_body_read_failure in L by assumption. discriminate.
Qed.

(** One pass with a frame: its events and its presence flag. *)
Lemma loop_body_events (st : State) (t : Tick) es st' fl :
  ret t = true ->
  loop_body st t = (es, st', fl) ->
  let d := detected_now t in
  let p := person_detected_previously st in
  events_of es =
    (if d && negb p then [Arrived (detection_count t)]
     else if negb d && p then [Departed] else [])
  /\ person_detected_previously st' = d
  /\ (d = p -> st' = st).
Proof.
  intros R L d p.
  destruct (loop_body_read_ok st t R) as (bes & st1 & T & L').
  rewrite L' in L. injection L as <- <- _.
  destruct (transition_events st t bes st1 T) as (E & P & S).
  simpl. rewrite !events_of_app, events_of_show, events_of_exit_check, !app_nil_r.
  repeat split; try assumption. intro H. now apply S.
Qed.

(** C1.  Started with [person_detected_previously = False], the loop is an
    edge-triggered two-state machine over the detection booleans of its
    iterations: iteration [i] is entered with the flag equal to the previous
    boolean ([False] for the first), it announces an arrival exactly when the
    flag is [False] and the boolean [True], a departure exactly when the flag
    is [True] and the boolean [False], and when boolean and flag agree it
    announces nothing and leaves the whole state as it was.  After the
    iteration the flag equals the boolean. *)
Theorem presence_tracker_edge_triggered :
  forall (ticks : list Tick) (i : nat) (it : Iteration),
    nth_error (iterations initial_state ticks) i = Some it ->
    ret (tick it) = true ->
    let ds := map detected_now ticks in
    let p := person_detected_previously (before it) in
    let d := detected_now (tick it) in
    d = nth i ds false
    /\ p = presence_entering ds i
    /\ (events_of (effects it) = [Arrived (detection_count (tick it))]
        <-> p = false /\ d = true)
    /\ (events_of (effects it) = [Departed] <-> p = true /\ d = false)
    /\ (d = p -> events_of (effects it) = [] /\ after it = before it)
    /\ person_detected_previously (after it) = d.
Proof.
  intros ticks i it H R ds p d.
  destruct (iterations_nth ticks _ _ _ H) as [N L].
  assert (Hd : d = nth i ds false).
  { subst d ds. symmetry.
    rewrite (nth_indep _ false (detected_now (tick it))).
    - rewrite map_nth. now rewrite (nth_error_nth _ _ _ N).
    - rewrite length_map. apply nth_error_Some. congruence. }
  assert (Hp : p = presence_entering ds i).
  { pose proof (iterations_chain ticks _ _ _ H) as C.
    destruct i as [|j]; simpl.
    - subst p. now rewrite C.
    - destruct C as (it' & H' & B & F).
      destruct (iterations_nth ticks _ _ _ H') as [N' L'].
      rewrite F in L'.
      pose proof (loop_body_continue_read _ _ _ _ L') as R'.
      destruct (loop_body_events _ _ _ _ _ R' L') as (_ & P' & _).
      subst p ds. rewrite B, P'.
      rewrite (nth_indep _ false (detected_now (tick it'))).
      + rewrite map_nth. now rewrite (nth_error_nth _ _ _ N').
      + rewrite length_map. apply nth_error_Some. congruence. }
  destruct (loop_body_events _ _ _ _ _ R L) as (E & P & S).
  fold d p in E, P, S.
  split; [exact Hd|]. split; [exact Hp|].
  rewrite E. clear Hd Hp.
  destruct d, p; simpl; repeat split; try congruence; try tauto;
    try (intros [? ?]; congruence); try (intro; now apply S).
Qed.

Lemma presence_tracker_edge_triggered_witness :
  exists it,
    nth_error (iterations initial_state [calm_tick 1 2 100%Q; calm_tick 2 0 101%Q]) 1
      = Some it
    /\ events_of (effects it) = [Departed]
    /\ person_detected_previously (after it) = false.
Proof.
  eexists. split; [reflexivity|].
  pose proof (presence_tracker_edge_triggered
                [calm_tick 1 2 100%Q; calm_tick 2 0 101%Q] 1 _ eq_refl eq_refl)
    as (_ & _ & _ & D & _ & P).
  split; [apply D; split; reflexivity | exact P].
Defined.

(** ** C2 and C3: the notification cooldown *)

Lemma send_notification_open (last now : Q) (o : Outcome) :
  cooldown_over now last = true ->
  send_notification last now o =
    match o with
    | returns => ([CallNotify returns; Log INFO msg_notification_sent], now)
    | raises => ([CallNotify raises; Log ERROR msg_notification_failed], last)
    end.
Proof. intro G. unfold send_notification. now rewrite G. Qed.

Lemma send_notification_closed (last now : Q) (o : Outcome) :
  cooldown_over now last = false ->
  send_notification last now o = ([Log INFO msg_notification_skipped], last).
Proof. intro G. unfold send_notification. now rewrite G. Qed.

Lemma notify_not_in_save_photo af t r o :
  ~ In (CallNotify o) (fst (save_photo af t r)).
Proof. piece. Qed.

Lemma notify_not_in_show st t d o : ~ In (CallNotify o) (show st t d).
Proof. destruct d; piece. Qed.

Lemma notify_not_in_exit_check t o : ~ In (CallNotify o) (fst (exit_check t)).
Proof. piece. Qed.

Lemma notify_in_send_notification last now o o' :
  In (CallNotify o') (fst (send_notification last now o)) ->
  cooldown_over now last = true /\ o' = o.
Proof.
  unfold send_notification.
  destruct (cooldown_over now last), o; simpl; intro H;
    repeat (destruct H as [H|H]; try discriminate H);
    try contradiction; injection H as <-; auto.
Qed.

(** C2.  Each time the arrival branch reaches the cooldown test with clock
    reading [now], the popup is attempted exactly when
    [now - last_notification_time > notification_cooldown];
    [last_notification_time] becomes [now] when the popup is attempted and
    delivered, and keeps its value when the popup is suppressed or its
    delivery raises.  The variable starts at [0], so before the first
    delivery the test passes exactly for [now > 15]. *)
Theorem cooldown_gate_contract :
  forall (st : State) (t : Tick) (r : Results),
    let now := time_time t in
    let last := last_notification_time st in
    let es := fst (on_arrival st t r) in
    let last' := last_notification_time (snd (on_arrival st t r)) in
    ((exists o, In (CallNotify o) es) <-> (notification_cooldown < now - last)%Q)
    /\ ((notification_cooldown < now - last)%Q -> notify t = returns ->
        last' = now /\ popups_of es = [Delivered])
    /\ ((notification_cooldown < now - last)%Q -> notify t = raises ->
        last' = last /\ popups_of es = [DeliveryFailed])
    /\ ((now - last <= notification_cooldown)%Q ->
        last' = last /\ popups_of es = [Suppressed])
    /\ (cooldown_over now (last_notification_time initial_state) = true
        <-> (15 < now)%Q).
Proof.
  intros st t r now last es last'. subst es last'.
  rewrite on_arrival_state, on_arrival_effects. simpl.
  fold now last.
  rewrite popups_of_app, popups_of_save_photo. simpl.
  split; [split|].
  - intros [o [I|I]]; [discriminate|].
    apply in_app_or in I. destruct I as [I|I].
    + now apply notify_not_in_save_photo in I.
    + apply notify_in_send_notification in I.
      now apply cooldown_over_true.
  - intro G. apply cooldown_over_true in G.
    exists (notify t). right. apply in_or_app. right.
    rewrite send_notification_open by assumption.
    destruct (notify t); simpl; auto.
  - split; [|split; [|split]].
    + intros G O. apply cooldown_over_true in G.
      rewrite send_notification_open by assumption. now rewrite O.
    + intros G O. apply cooldown_over_true in G.
      rewrite send_notification_open by assumption. now rewrite O.
    + intros G. apply cooldown_over_false in G.
      now rewrite send_notification_closed by assumption.
    + rewrite cooldown_over_true. unfold notification_cooldown. simpl.
      split; intro G; lra.
Qed.

(** C2 as the specification words it does not hold.  With the delivery
    raising, the test passes (the popup is attempted) and nothing is
    recorded, where [try_fire] records [100]; and in the initial state at
    clock reading [10] the test does not pass, where [try_fire] with
    [last_fired_at = none] answers [true]. *)
Lemma cooldown_gate_counterexample :
  (notification_cooldown < 100 - 0)%Q
  /\ popups_of (fst (send_notification 0 100 raises)) = [DeliveryFailed]
  /\ snd (send_notification 0 100 raises) = 0%Q
  /\ ~ (snd (send_notification 0 100 raises) == 100)%Q
  /\ try_fire {| last_fired_at := Some 0%Q; cooldown_duration := 15 |} 100
     = (true, {| last_fired_at := Some 100%Q; cooldown_duration := 15 |})
  /\ cooldown_over 10 (last_notification_time initial_state) = false
  /\ fst (try_fire {| last_fired_at := None; cooldown_duration := 15 |} 10) = true.
Proof.
  repeat split; try reflexivity. intro H. discriminate H.
Qed.

(** [last_notification_time] never decreases: it is only assigned a clock
    reading that exceeds it by more than the cooldown. *)
Lemma send_notification_monotone (last now : Q) (o : Outcome) :
  (last <= snd (send_notification last now o))%Q.
Proof.
  unfold send_notification.
  destruct (cooldown_over now last) eqn:G; [|simpl; lra].
  apply cooldown_over_true in G. unfold notification_cooldown in G.
  destruct o; simpl; lra.
Qed.

Lemma transition_last_monotone (st : State) (t : Tick) bes st' :
  transition st t = Some (bes, st') ->
  (last_notification_time st <= last_notification_time st')%Q.
Proof.
  intro T.
  destruct (detected_now t) eqn:D, (person_detected_previously st) eqn:P.
  - rewrite transition_steady in T by congruence. injection T as _ <-. lra.
  - destruct (transition_arrival st t D P) as (r & rest & _ & E).
    rewrite E in T. injection T as T.
    assert (S' : st' = snd (on_arrival st t r)) by now rewrite T.
    rewrite S', on_arrival_state. simpl. apply send_notification_monotone.
  - rewrite transition_departure in T by assumption.
    injection T as _ <-. simpl. lra.
  - rewrite transition_steady in T by congruence. injection T as _ <-. lra.
Qed.

Lemma loop_body_last_monotone (st : State) (t : Tick) es st' fl :
  loop_body st t = (es, st', fl) ->
  (last_notification_time st <= last_notification_time st')%Q.
Proof.
  intro L. destruct (ret t) eqn:R.
  - destruct (loop_body_read_ok st t R) as (bes & st1 & T & L').
    rewrite L' in L. injection L as _ <- _.
    eapply transition_last_monotone; eassumption.
  - rewrite loop_body_read_failure in L by assumption.
    injection L as _ <- _. lra.
Qed.

(** A call of [notification.notify] in a pass comes from the arrival branch
    with the cooldown test passed; if it returns, its clock reading is
    recorded. *)
Lemma notify_in_loop_body (st : State) (t : Tick) es st' fl (o : Outcome) :
  loop_body st t = (es, st', fl) ->
  In (CallNotify o) es ->
  cooldown_over (time_time t) (last_notification_time st) = true
  /\ o = notify t
  /\ (o = returns -> last_notification_time st' = time_time t).
Proof.
  intros L I. destruct (ret t) eqn:R.
  2:{ rewrite loop_body_read_failure in L by assumption.
      injection L as <- _ _. simpl in I. intuition discriminate. }
  destruct (loop_body_read_ok st t R) as (bes & st1 & T & L').
  rewrite L' in L. injection L as <- <- _.
  destruct I as [I|I]; [discriminate|].
  apply in_app_or in I. destruct I as [I|I].
  2:{ apply in_app_or in I. destruct I as [I|I].
      - now apply notify_not_in_show in I.
      - now apply notify_not_in_exit_check in I. }
  destruct (detected_now t) eqn:D, (person_detected_previously st) eqn:P.
  - rewrite transition_steady in T by congruence. injection T as <- _. destruct I.
  - destruct (transition_arrival st t D P) as (r & rest & _ & E).
    rewrite E in T. injection T as T.
    assert (B : bes = fst (on_arrival st t r)) by now rewrite T.
    assert (S' : st1 = snd (on_arrival st t r)) by now rewrite T.
    subst bes st1. rewrite on_arrival_effects in I. rewrite on_arrival_state.
    destruct I as [I|I]; [discriminate|].
    apply in_app_or in I. destruct I as [I|I].
    + now apply notify_not_in_save_photo in I.
    + apply notify_in_send_notification in I. destruct I as [G ->].
      repeat split; [exact G|]. intro O. simpl.
      rewrite send_notification_open by assumption. now rewrite O.
  - rewrite transition_departure in T by assumption.
    injection T as <- _. simpl in I. intuition discriminate.
  - rewrite transition_steady in T by congruence. injection T as <- _. destruct I.
Qed.

(** Between two passes of a run the recorded time does not decrease. *)
Lemma iterations_last_monotone (ticks : list Tick) (st : State) :
  forall j i it1 it2,
    (i < j)%nat ->
    nth_error (iterations st ticks) i = Some it1 ->
    nth_error (iterations st ticks) j = Some it2 ->
    (last_notification_time (after it1)
     <= last_notification_time (before it2))%Q.
Proof.
  induction j as [|j IH]; intros i it1 it2 Lt H1 H2; [lia|].
  pose proof (iterations_chain ticks _ _ _ H2) as (it' & H' & B & _).
  rewrite B.
  destruct (Nat.eq_dec i j) as [->|Ne].
  - rewrite H1 in H'. injection H' as <-. lra.
  - assert (Lt' : (i < j)%nat) by lia.
    specialize (IH i it1 it' Lt' H1 H').
    destruct (iterations_nth ticks _ _ _ H') as [_ L].
    pose proof (loop_body_last_monotone _ _ _ _ _ L). lra.
Qed.

(** C3.  In a run of the loop from any state, once a popup has been
    delivered at clock reading [t1], no later iteration whose clock reading
    [t2] satisfies [t2 - t1 <= notification_cooldown] attempts a popup: the
    cooldown test answers [False] there.  So at most one popup is delivered
    per cooldown window. *)
Theorem cooldown_window_after_delivery :
  forall (st : State) (ticks : list Tick) (i j : nat) (it1 it2 : Iteration)
         (o : Outcome),
    (i < j)%nat ->
    nth_error (iterations st ticks) i = Some it1 ->
    nth_error (iterations st ticks) j = Some it2 ->
    In (CallNotify returns) (effects it1) ->
    (time_time (tick it2) - time_time (tick it1) <= notification_cooldown)%Q ->
    ~ In (CallNotify o) (effects it2)
    /\ cooldown_over (time_time (tick it2))
                     (last_notification_time (before it2)) = false.
Proof.
  intros st ticks i j it1 it2 o Lt H1 H2 I1 W.
  destruct (iterations_nth ticks _ _ _ H1) as [_ L1].
  destruct (iterations_nth ticks _ _ _ H2) as [_ L2].
  destruct (notify_in_loop_body _ _ _ _ _ _ L1 I1) as (_ & _ & Rec).
  specialize (Rec eq_refl).
  pose proof (iterations_last_monotone ticks st j i it1 it2 Lt H1 H2) as M.
  rewrite Rec in M.
  assert (G : cooldown_over (time_time (tick it2))
                (last_notification_time (before it2)) = false).
  { apply cooldown_over_false. lra. }
  split; [|exact G].
  intro I2. destruct (notify_in_loop_body _ _ _ _ _ _ L2 I2) as (G' & _).
  congruence.
Qed.

Lemma cooldown_window_after_delivery_witness :
  exists it2,
    nth_error (iterations initial_state back_in_two_seconds) 2 = Some it2
    /\ ~ In (CallNotify returns) (effects it2)
    /\ popups_of (effects it2) = [Suppressed].
Proof.
  eexists. split; [reflexivity|]. split; [|reflexivity].
  refine (proj1 (cooldown_window_after_delivery
                   initial_state back_in_two_seconds 0 2 _ _ returns
                   _ eq_refl eq_refl _ _)).
  - lia.
  - simpl. auto 10.
  - vm_compute. discriminate.
Defined.

(** C3 as the specification words it does not hold: when the delivery of the
    first popup raises, nothing is recorded, and the cooldown test passes
    again two seconds later. *)
Lemma cooldown_window_counterexample :
  exists it1 it2,
    nth_error (iterations initial_state back_after_failed_popup) 0 = Some it1
    /\ nth_error (iterations initial_state back_after_failed_popup) 2 = Some it2
    /\ (time_time (tick it1) < time_time (tick it2))%Q
    /\ (time_time (tick it2) - time_time (tick it1) <= notification_cooldown)%Q
    /\ cooldown_over (time_time (tick it1))
                     (last_notification_time (before it1)) = true
    /\ cooldown_over (time_time (tick it2))
                     (last_notification_time (before it2)) = true
    /\ In (CallNotify raises) (effects it1)
    /\ In (CallNotify returns) (effects it2).
Proof.
  eexists. eexists.
  split; [reflexivity|]. split; [reflexivity|].
  split; [vm_compute; reflexivity|].
  split; [vm_compute; discriminate|].
  split; [reflexivity|]. split; [reflexivity|].
  split; simpl; auto 10.
Qed.

(** ** Whole passes *)

Lemma arrival_pass (st : State) (t : Tick) :
  ret t = true -> detected_now t = true ->
  person_detected_previously st = false ->
  exists r rest,
    results t = r :: rest
    /\ loop_body st t =
         (Read true
          :: (Log INFO (msg_person_detected (List.length (boxes r)))
              :: fst (save_photo (annotated_frame st) t r)
              ++ fst (send_notification (last_notification_time st)
                                        (time_time t) (notify t)))
          ++ show (arrival_state st t r) t true ++ fst (exit_check t),
          arrival_state st t r, snd (exit_check t)).
Proof.
  intros R D P.
  destruct (loop_body_read_ok st t R) as (bes & st' & T & L).
  destruct (transition_arrival st t D P) as (r & rest & E & T').
  exists r, rest. split; [exact E|].
  rewrite T' in T. injection T as T.
  assert (B : bes = fst (on_arrival st t r)) by now rewrite T.
  assert (S' : st' = snd (on_arrival st t r)) by now rewrite T.
  rewrite L, B, S', D, on_arrival_effects, on_arrival_state. reflexivity.
Qed.

Lemma departure_pass (st : State) (t : Tick) :
  ret t = true -> detected_now t = false ->
  person_detected_previously st = true ->
  loop_body st t =
    (Read true :: [Log INFO msg_person_left]
     ++ show (departure_state st) t false ++ fst (exit_check t),
     departure_state st, snd (exit_check t)).
Proof.
  intros R D P.
  destruct (loop_body_read_ok st t R) as (bes & st' & T & L).
  rewrite transition_departure in T by assumption.
  injection T as <- <-. now rewrite L, D.
Qed.

Lemma steady_pass (st : State) (t : Tick) :
  ret t = true -> detected_now t = person_detected_previously st ->
  loop_body st t =
    (Read true :: show st t (detected_now t) ++ fst (exit_check t),
     st, snd (exit_check t)).
Proof.
  intros R D.
  destruct (loop_body_read_ok st t R) as (bes & st' & T & L).
  rewrite transition_steady in T by assumption.
  injection T as <- <-. exact L.
Qed.

Lemma exit_check_continue (t : Tick) :
  quit_requested (waitKey t) = false ->
  exit_check t = ([CallWaitKey], Continue).
Proof. intro Q. unfold exit_check. now rewrite Q. Qed.

Lemma iterations_continue (st : State) (t : Tick) (rest : list Tick) es st' :
  loop_body st t = (es, st', Continue) ->
  iterations st (t :: rest) =
    {| before := st; tick := t; effects := es; after := st'; flow := Continue |}
    :: iterations st' rest.
Proof. intro L. simpl. now rewrite L. Qed.

Lemma iterations_last (st : State) (t : Tick) es st' fl :
  loop_body st t = (es, st', fl) ->
  iterations st [t] =
    [{| before := st; tick := t; effects := es; after := st'; flow := fl |}].
Proof. intro L. simpl. rewrite L. now destruct fl. Qed.

Lemma summary_arrival (st : State) (t : Tick) :
  ret t = true -> detected_now t = true ->
  person_detected_previously st = false ->
  exists es st',
    loop_body st t = (es, st', snd (exit_check t))
    /\ person_detected_previously st' = true
    /\ last_notification_time st' =
         snd (send_notification (last_notification_time st)
                                (time_time t) (notify t))
    /\ events_of es = [Arrived (detection_count t)]
    /\ List.length (filter is_photo_attempt es) = 1%nat
    /\ popups_of es =
         popups_of (fst (send_notification (last_notification_time st)
                                           (time_time t) (notify t))).
Proof.
  intros R D P. destruct (arrival_pass st t R D P) as (r & rest & E & L).
  eexists. eexists. split; [exact L|].
  split; [reflexivity|]. split; [reflexivity|].
  unfold detection_count. rewrite E. simpl.
  autorewrite with pieces. simpl. autorewrite with pieces. auto.
Qed.

Lemma summary_departure (st : State) (t : Tick) :
  ret t = true -> detected_now t = false ->
  person_detected_previously st = true ->
  exists es st',
    loop_body st t = (es, st', snd (exit_check t))
    /\ person_detected_previously st' = false
    /\ last_notification_time st' = last_notification_time st
    /\ events_of es = [Departed]
    /\ List.length (filter is_photo_attempt es) = 0%nat
    /\ popups_of es = [].
Proof.
  intros R D P. pose proof (departure_pass st t R D P) as L.
  eexists. eexists. split; [exact L|].
  split; [reflexivity|]. split; [reflexivity|].
  simpl. autorewrite with pieces. auto.
Qed.

(** ** C4: the flapping scenario *)

Lemma save_photo_effects (af : option Image) (t : Tick) (r : Results) :
  fst (save_photo af t r) =
    match plot t with
    | raises => [CallPlot raises; Log ERROR msg_photo_failed]
    | returns =>
        [CallPlot returns;
         CallImwrite (photo_filename (datetime_now t))
                     (Plotted (frame t) (boxes r)) (imwrite t);
         match imwrite t with
         | returns => Log INFO (msg_photo_saved (photo_filename (datetime_now t)))
         | raises => Log ERROR msg_photo_failed
         end]
    end.
Proof. unfold save_photo. now destruct (plot t), (imwrite t). Qed.

Lemma snapshot_effects_save_photo af t r :
  filter is_snapshot_effect (fst (save_photo af t r)) = fst (save_photo af t r).
Proof. piece. Qed.

Lemma snapshot_effects_send_notification last now o :
  filter is_snapshot_effect (fst (send_notification last now o)) = [].
Proof. piece. Qed.

Lemma snapshot_effects_show st t d : filter is_snapshot_effect (show st t d) = [].
Proof. destruct d; piece. Qed.

Lemma snapshot_effects_exit_check t :
  filter is_snapshot_effect (fst (exit_check t)) = [].
Proof. piece. Qed.

(** The snapshot effects of an arrival, whatever the cooldown test says. *)
Lemma snapshot_effects_arrival (st : State) (t : Tick) :
  ret t = true -> detected_now t = true ->
  person_detected_previously st = false ->
  filter is_snapshot_effect (fst (fst (loop_body st t))) =
    match plot t with
    | raises => [CallPlot raises; Log ERROR msg_photo_failed]
    | returns =>
        [CallPlot returns;
         CallImwrite (photo_filename (datetime_now t))
                     (Plotted (frame t) (detected_boxes t)) (imwrite t);
         match imwrite t with
         | returns => Log INFO (msg_photo_saved (photo_filename (datetime_now t)))
         | raises => Log ERROR msg_photo_failed
         end]
    end.
Proof.
  intros R D P. destruct (arrival_pass st t R D P) as (r & rest & E & L).
  rewrite L. simpl. rewrite !filter_app.
  rewrite snapshot_effects_save_photo, snapshot_effects_send_notification,
    snapshot_effects_show, snapshot_effects_exit_check, !app_nil_r.
  unfold detected_boxes. rewrite E. apply save_photo_effects.
Qed.

Lemma snapshot_effects_departure (st : State) (t : Tick) :
  ret t = true -> detected_now t = false ->
  person_detected_previously st = true ->
  filter is_snapshot_effect (fst (fst (loop_body st t))) = [].
Proof.
  intros R D P. rewrite (departure_pass st t R D P). simpl.
  now rewrite !filter_app, snapshot_effects_show, snapshot_effects_exit_check.
Qed.

(** C4, amended.  Five iterations with detections
    [true, false, true, false, true], one second apart, no read failure and
    no exit key, the first popup accepted by the notification service, and a
    clock that reads more than the cooldown at the first iteration (as
    seconds since 1970 do): the arrival is announced three times and the
    departure twice; each of the three arrivals attempts its snapshot, that
    is, calls [plot] and, when [plot] has returned, hands the picture drawn
    from its own frame to [cv2.imwrite] under its own file name and logs the
    outcome, while the departures do nothing about snapshots; the first
    arrival delivers its popup and the other two, two and four seconds
    later, are suppressed by the cooldown.  The snapshot, display and later
    delivery outcomes are arbitrary. *)
Theorem flapping_scenario :
  forall a b c d e : Tick,
    map ret [a; b; c; d; e] = [true; true; true; true; true] ->
    map detected_now [a; b; c; d; e] = [true; false; true; false; true] ->
    map (fun t => quit_requested (waitKey t)) [a; b; c; d]
      = [false; false; false; false] ->
    (notification_cooldown < time_time a)%Q ->
    (time_time b == time_time a + 1)%Q ->
    (time_time c == time_time b + 1)%Q ->
    (time_time d == time_time c + 1)%Q ->
    (time_time e == time_time d + 1)%Q ->
    notify a = returns ->
    let snapshot :=
      fun t : Tick =>
        match plot t with
        | raises => [CallPlot raises; Log ERROR msg_photo_failed]
        | returns =>
            [CallPlot returns;
             CallImwrite (photo_filename (datetime_now t))
                         (Plotted (frame t) (detected_boxes t)) (imwrite t);
             match imwrite t with
             | returns =>
                 Log INFO (msg_photo_saved (photo_filename (datetime_now t)))
             | raises => Log ERROR msg_photo_failed
             end]
        end in
    map summary (iterations initial_state [a; b; c; d; e]) =
      [ ([Arrived (detection_count a)], snapshot a, [Delivered]);
        ([Departed], [], []);
        ([Arrived (detection_count c)], snapshot c, [Suppressed]);
        ([Departed], [], []);
        ([Arrived (detection_count e)], snapshot e, [Suppressed]) ].
Proof.
  intros a b c d e HR HD HK T0 Tb Tc Td Te Na snapshot.
  injection HR as Ra Rb Rc Rd Re.
  injection HD as Da Db Dc Dd De.
  injection HK as Ka Kb Kc Kd.
  unfold notification_cooldown in T0.
  (* first arrival: the popup is delivered and its time recorded *)
  destruct (summary_arrival initial_state a Ra Da eq_refl)
    as (es1 & s1 & L1 & P1 & N1 & E1 & _ & U1).
  pose proof (snapshot_effects_arrival initial_state a Ra Da eq_refl) as S1.
  rewrite L1 in S1. simpl in S1.
  rewrite exit_check_continue in L1 by assumption. simpl in L1.
  assert (G1 : cooldown_over (time_time a)
                 (last_notification_time initial_state) = true).
  { apply cooldown_over_true. unfold notification_cooldown. simpl. lra. }
  rewrite send_notification_open in N1, U1 by assumption.
  rewrite Na in N1, U1. simpl in N1, U1.
  rewrite (iterations_continue _ _ _ _ _ L1).
  (* first departure *)
  destruct (summary_departure s1 b Rb Db P1)
    as (es2 & s2 & L2 & P2 & N2 & E2 & _ & U2).
  pose proof (snapshot_effects_departure s1 b Rb Db P1) as S2.
  rewrite L2 in S2. simpl in S2.
  rewrite exit_check_continue in L2 by assumption. simpl in L2.
  rewrite (iterations_continue _ _ _ _ _ L2).
  (* second arrival, two seconds after the first *)
  destruct (summary_arrival s2 c Rc Dc P2)
    as (es3 & s3 & L3 & P3 & N3 & E3 & _ & U3).
  pose proof (snapshot_effects_arrival s2 c Rc Dc P2) as S3.
  rewrite L3 in S3. simpl in S3.
  rewrite exit_check_continue in L3 by assumption. simpl in L3.
  assert (G3 : cooldown_over (time_time c) (last_notification_time s2) = false).
  { apply cooldown_over_false. unfold notification_cooldown.
    rewrite N2, N1. lra. }
  rewrite send_notification_closed in N3, U3 by assumption.
  simpl in N3, U3.
  rewrite (iterations_continue _ _ _ _ _ L3).
  (* second departure *)
  destruct (summary_departure s3 d Rd Dd P3)
    as (es4 & s4 & L4 & P4 & N4 & E4 & _ & U4).
  pose proof (snapshot_effects_departure s3 d Rd Dd P3) as S4.
  rewrite L4 in S4. simpl in S4.
  rewrite exit_check_continue in L4 by assumption. simpl in L4.
  rewrite (iterations_continue _ _ _ _ _ L4).
  (* third arrival, four seconds after the first *)
  destruct (summary_arrival s4 e Re De P4)
    as (es5 & s5 & L5 & P5 & N5 & E5 & _ & U5).
  pose proof (snapshot_effects_arrival s4 e Re De P4) as S5.
  rewrite L5 in S5. simpl in S5.
  assert (G5 : cooldown_over (time_time e) (last_notification_time s4) = false).
  { apply cooldown_over_false. unfold notification_cooldown.
    rewrite N4, N3, N2, N1. lra. }
  rewrite send_notification_closed in U5 by assumption. simpl in U5.
  rewrite (iterations_last _ _ _ _ _ L5).
  unfold summary, snapshot. simpl.
  now rewrite E1, S1, U1, E2, S2, U2, E3, S3, U3, E4, S4, U4, E5, S5, U5.
Qed.

Lemma flapping_scenario_witness :
  map summary
      (iterations initial_state
         [calm_tick 1 1 1700000000; calm_tick 2 0 1700000001;
          unwritable_tick 3 2 1700000002; calm_tick 4 0 1700000003;
          calm_tick 5 1 1700000004]) =
    [ ([Arrived 1],
       [CallPlot returns;
        CallImwrite (photo_filename noon) (Plotted 1 [O]) returns;
        Log INFO (msg_photo_saved (photo_filename noon))],
       [Delivered]);
      ([Departed], [], []);
      ([Arrived 2],
       [CallPlot returns;
        CallImwrite (photo_filename noon) (Plotted 3 [O; O]) raises;
        Log ERROR msg_photo_failed],
       [Suppressed]);
      ([Departed], [], []);
      ([Arrived 1],
       [CallPlot returns;
        CallImwrite (photo_filename noon) (Plotted 5 [O]) returns;
        Log INFO (msg_photo_saved (photo_filename noon))],
       [Suppressed]) ].
Proof.
  apply (flapping_scenario
           (calm_tick 1 1 1700000000) (calm_tick 2 0 1700000001)
           (unwritable_tick 3 2 1700000002) (calm_tick 4 0 1700000003)
           (calm_tick 5 1 1700000004));
    try reflexivity.
Defined.

(** C4 as the specification words it does not hold on a clock that starts at
    zero: [last_notification_time] starts at [0], not at "never", so the
    first arrival finds [0 - 0 > 15] false and its popup is suppressed like
    the other two. *)
Lemma flapping_scenario_counterexample :
  map summary (iterations initial_state flapping_from_zero) =
    [ ([Arrived 1],
       [CallPlot returns;
        CallImwrite (photo_filename noon) (Plotted 1 [O]) returns;
        Log INFO (msg_photo_saved (photo_filename noon))],
       [Suppressed]);
      ([Departed], [], []);
      ([Arrived 1],
       [CallPlot returns;
        CallImwrite (photo_filename noon) (Plotted 3 [O]) returns;
        Log INFO (msg_photo_saved (photo_filename noon))],
       [Suppressed]);
      ([Departed], [], []);
      ([Arrived 1],
       [CallPlot returns;
        CallImwrite (photo_filename noon) (Plotted 5 [O]) returns;
        Log INFO (msg_photo_saved (photo_filename noon))],
       [Suppressed]) ].
Proof. reflexivity. Qed.

(** ** C5 and C6: what an arrival and a departure do *)

Lemma send_notification_effects (last now : Q) (o : Outcome) :
  fst (send_notification last now o) =
    if cooldown_over now last then
      [CallNotify o;
       match o with
       | returns => Log INFO msg_notification_sent
       | raises => Log ERROR msg_notification_failed
       end]
    else [Log INFO msg_notification_skipped].
Proof.
  unfold send_notification. now destruct (cooldown_over now last), o.
Qed.

Lemma no_imwrite_in_show st t d : filter is_imwrite (show st t d) = [].
Proof. destruct d; piece. Qed.

Lemma no_imwrite_in_exit_check t : filter is_imwrite (fst (exit_check t)) = [].
Proof. piece. Qed.

Lemma no_notify_in_show st t d : filter is_notify (show st t d) = [].
Proof. destruct d; piece. Qed.

Lemma no_notify_in_exit_check t : filter is_notify (fst (exit_check t)) = [].
Proof. piece. Qed.

(** C5.  In an iteration that announces an arrival the branch does, in this
    order: the log record with the box count; the snapshot attempt, that is
    the call of [plot] and, when it has returned, the call of [cv2.imwrite]
    with the picture drawn from this frame, followed by the record of the
    outcome; and only then the cooldown test with the popup or the record
    that it was skipped.  The log record and the snapshot attempt are the
    same whatever the cooldown test answers, and the iteration does nothing
    else about snapshots.  In an iteration that announces a departure the
    branch logs the one info record and nothing else; the whole iteration is
    the read, that record, the display of the raw frame and the exit check:
    it calls neither [plot] nor [cv2.imwrite] nor [notification.notify]. *)
Theorem arrival_and_departure_side_effects :
  forall (st : State) (t : Tick),
    ret t = true ->
    (detected_now t = true -> person_detected_previously st = false ->
     exists r rest st',
       results t = r :: rest
       /\ let snapshot :=
            match plot t with
            | raises => [CallPlot raises; Log ERROR msg_photo_failed]
            | returns =>
                [CallPlot returns;
                 CallImwrite (photo_filename (datetime_now t))
                             (Plotted (frame t) (boxes r)) (imwrite t);
                 match imwrite t with
                 | returns =>
                     Log INFO (msg_photo_saved (photo_filename (datetime_now t)))
                 | raises => Log ERROR msg_photo_failed
                 end]
            end in
          let popup :=
            if cooldown_over (time_time t) (last_notification_time st) then
              [CallNotify (notify t);
               match notify t with
               | returns => Log INFO msg_notification_sent
               | raises => Log ERROR msg_notification_failed
               end]
            else [Log INFO msg_notification_skipped] in
          transition st t =
            Some (Log INFO (msg_person_detected (List.length (boxes r)))
                  :: snapshot ++ popup, st')
          /\ filter is_snapshot_effect (fst (fst (loop_body st t))) = snapshot)
    /\ (detected_now t = false -> person_detected_previously st = true ->
        transition st t = Some ([Log INFO msg_person_left], departure_state st)
        /\ fst (fst (loop_body st t)) =
             Read true :: Log INFO msg_person_left
             :: CallImshow (Raw (frame t)) (imshow t)
             :: match imshow t with
                | returns => []
                | raises => [Log ERROR msg_display_failed]
                end
             ++ CallWaitKey
             :: (if quit_requested (waitKey t)
                 then [Log INFO msg_quit_key] else [])
        /\ filter is_photo_attempt (fst (fst (loop_body st t))) = []
        /\ filter is_imwrite (fst (fst (loop_body st t))) = []
        /\ filter is_notify (fst (fst (loop_body st t))) = []).
Proof.
  intros st t R. split; intros D P.
  - destruct (transition_arrival st t D P) as (r & rest & E & T).
    exists r, rest, (snd (on_arrival st t r)).
    split; [exact E|]. cbv zeta. split.
    + rewrite T, <- (save_photo_effects (annotated_frame st)),
        <- send_notification_effects, <- on_arrival_effects.
      now destruct (on_arrival st t r).
    + rewrite (snapshot_effects_arrival st t R D P).
      unfold detected_boxes. now rewrite E.
  - split; [now apply transition_departure|].
    assert (X : fst (fst (loop_body st t)) =
                Read true :: Log INFO msg_person_left
                :: CallImshow (Raw (frame t)) (imshow t)
                :: match imshow t with
                   | returns => []
                   | raises => [Log ERROR msg_display_failed]
                   end
                ++ CallWaitKey
                :: (if quit_requested (waitKey t)
                    then [Log INFO msg_quit_key] else [])).
    { rewrite (departure_pass st t R D P). simpl.
      unfold show, exit_check. simpl.
      now destruct (imshow t), (quit_requested (waitKey t)). }
    split; [exact X|]. rewrite X.
    now destruct (imshow t), (quit_requested (waitKey t)).
Qed.

Lemma arrival_and_departure_side_effects_witness :
  exists st',
    transition initial_state (unwritable_tick 7 3 5) =
      Some ([Log INFO (msg_person_detected 3);
             CallPlot returns;
             CallImwrite (photo_filename noon) (Plotted 7 [O; O; O]) raises;
             Log ERROR msg_photo_failed;
             Log INFO msg_notification_skipped], st').
Proof.
  destruct (proj1 (arrival_and_departure_side_effects
                     initial_state (unwritable_tick 7 3 5) eq_refl)
                  eq_refl eq_refl)
    as (r & rest & st' & E & T & _).
  simpl in E. injection E as <- _.
  exists st'. exact T.
Defined.

(** C6 fails on the code.  [cv2.imwrite] reports a file it could not write
    by returning [False]; the script does not look at the value.  In this
    arrival the snapshot is not written, yet nothing is caught and no error
    is logged: the record of line 115 says the photo was saved.  (The rest
    of the iteration goes on as the claim says: the popup is sent, the frame
    is shown, the key is polled.) *)
Theorem unwritten_snapshot_logged_as_saved :
  let t := silent_failure_tick 1 1 1700000000 in
  imwrite t = returns
  /\ imwrite_value t = false
  /\ fst (fst (loop_body initial_state t)) =
       [Read true;
        Log INFO (msg_person_detected 1);
        CallPlot returns;
        CallImwrite (photo_filename noon) (Plotted 1 [O]) returns;
        Log INFO (msg_photo_saved (photo_filename noon));
        CallNotify returns;
        Log INFO msg_notification_sent;
        CallImshow (Plotted 1 [O]) returns;
        CallWaitKey]
  /\ ~ In (Log ERROR msg_photo_failed) (fst (fst (loop_body initial_state t))).
Proof.
  simpl. repeat split. intuition discriminate.
Qed.

(** What the script logs about a write that came back does not depend on
    the value it came back with. *)
Lemma imwrite_value_is_not_read (st : State) (t : Tick) :
  ret t = true -> detected_now t = true ->
  person_detected_previously st = false ->
  plot t = returns -> imwrite t = returns ->
  filter is_snapshot_effect (fst (fst (loop_body st t))) =
    [CallPlot returns;
     CallImwrite (photo_filename (datetime_now t))
                 (Plotted (frame t) (detected_boxes t)) returns;
     Log INFO (msg_photo_saved (photo_filename (datetime_now t)))].
Proof.
  intros R D P Pl Im.
  rewrite (snapshot_effects_arrival st t R D P). now rewrite Pl, Im.
Qed.

(** ** C7: what is put on the screen *)

Lemma shown_show (st : State) (t : Tick) (d : bool) :
  shown (show st t d) =
    match (if d then annotated_frame st else Some (Raw (frame t))) with
    | Some img => [img]
    | None => []
    end.
Proof.
  unfold show.
  destruct (if d then annotated_frame st else Some (Raw (frame t)));
    [|reflexivity].
  now destruct (imshow t).
Qed.

Lemma shown_exit_check t : shown (fst (exit_check t)) = [].
Proof. unfold exit_check. now destruct (quit_requested (waitKey t)). Qed.

(** While a person stays in view the arrival branch is not entered, so
    [annotated_frame] is not assigned: the display gets whatever it held
    when the iteration began, or nothing at all when it was never bound. *)
Lemma staying_shows_old_annotation (st : State) (t : Tick) :
  ret t = true -> detected_now t = true ->
  person_detected_previously st = true ->
  shown (fst (fst (loop_body st t))) =
    match annotated_frame st with
    | Some img => [img]
    | None => []
    end.
Proof.
  intros R D P.
  rewrite (steady_pass st t R) by congruence.
  simpl. rewrite shown_app, shown_show, shown_exit_check, D.
  now destruct (annotated_frame st).
Qed.

(** Without a detection the frame just read is shown, as it is. *)
Lemma absent_shows_raw_frame (st : State) (t : Tick) :
  ret t = true -> detected_now t = false ->
  shown (fst (fst (loop_body st t))) = [Raw (frame t)].
Proof.
  intros R D.
  destruct (loop_body_read_ok st t R) as (bes & st' & T & L).
  rewrite L, D. simpl. rewrite !shown_app, shown_show, shown_exit_check.
  assert (B : shown bes = []).
  { destruct (person_detected_previously st) eqn:P.
    - rewrite transition_departure in T by assumption. now injection T as <- _.
    - rewrite transition_steady in T by congruence. now injection T as <- _. }
  now rewrite B.
Qed.

(** C7 fails on the code.  A person stays in view for two frames: the second
    iteration reads frame [2], with two boxes, and puts on the screen the
    picture drawn from frame [1] in the first iteration. *)
Theorem display_shows_stale_annotation :
  exists it,
    nth_error (iterations initial_state staying_in_view) 1 = Some it
    /\ ret (tick it) = true
    /\ frame (tick it) = 2%nat
    /\ detected_now (tick it) = true
    /\ detection_count (tick it) = 2%nat
    /\ shown (effects it) = [Plotted 1 [O]]
    /\ shown (effects it) <> [Plotted (frame (tick it)) [O; O]].
Proof.
  eexists. split; [reflexivity|].
  repeat split. discriminate.
Qed.

(** ** C9: a frame that cannot be read *)

Lemma main_loop_app (xs ys : list Tick) :
  forall st es st',
    main_loop st xs = (es, st', Continue) ->
    main_loop st (xs ++ ys) =
      let '(es', st'', fl) := main_loop st' ys in (es ++ es', st'', fl).
Proof.
  induction xs as [|x xs IH]; intros st es st' H; simpl in *.
  - injection H as <- <-. now destruct (main_loop st ys) as [[? ?] ?].
  - destruct (loop_body st x) as [[e1 s1] f1].
    destruct f1; try discriminate.
    destruct (main_loop s1 xs) as [[e2 s2] f2] eqn:M.
    injection H as <- <- ->.
    rewrite (IH _ _ _ M).
    destruct (main_loop s2 ys) as [[e3 s3] f3].
    now rewrite app_assoc.
Qed.

(** C9.  When the loop has run through some iterations and the next
    [cap.read()] fails, the session logs the warning, reads no further frame
    and does nothing else in the loop, whatever the world would have offered
    next, and goes on to release the camera, close the windows and log the
    two closing records. *)
Theorem read_failure_ends_session :
  forall (earlier later : list Tick) (t : Tick) es st,
    main_loop initial_state earlier = (es, st, Continue) ->
    ret t = false ->
    session (earlier ++ t :: later) =
      es ++ [Read false; Log WARNING msg_cannot_read_frame]
         ++ [CapRelease; DestroyAllWindows;
             Log INFO msg_released; Log INFO msg_script_end].
Proof.
  intros earlier later t es st M R. unfold session.
  rewrite (main_loop_app _ (t :: later) _ _ _ M). simpl.
  rewrite (loop_body_read_failure st t R). simpl.
  now rewrite <- app_assoc.
Qed.

Lemma read_failure_ends_session_witness :
  session ([calm_tick 1 0 1700000000] ++ blind_tick :: [calm_tick 2 1 1700000002])
  = [Read true; CallImshow (Raw 1) returns; CallWaitKey;
     Read false; Log WARNING msg_cannot_read_frame;
     CapRelease; DestroyAllWindows;
     Log INFO msg_released; Log INFO msg_script_end].
Proof.
  exact (read_failure_ends_session
           [calm_tick 1 0 1700000000] [calm_tick 2 1 1700000002] blind_tick
           _ _ eq_refl eq_refl).
Defined.

(** ** C10: the count of an arrival *)

Lemma in_events_of (e : Effect) (ev : PresenceEvent) (es : list Effect) :
  In e es -> presence_event e = Some ev -> In ev (events_of es).
Proof.
  induction es as [|x xs IH]; intros I P; [destruct I|].
  destruct I as [->|I]; simpl.
  - rewrite P. now left.
  - destruct (presence_event x); [right|]; auto.
Qed.

(** C10.  Whenever an executed iteration logs the arrival record with count
    [n], the detector returned a first result whose box list is not empty,
    [n] is the length of that list, and so [n >= 1]; the presence flag was
    [False] on entry. *)
Theorem arrival_count_positive :
  forall (st : State) (ticks : list Tick) (i : nat) (it : Iteration) (n : nat),
    nth_error (iterations st ticks) i = Some it ->
    In (Log INFO (msg_person_detected n)) (effects it) ->
    (1 <= n)%nat
    /\ person_detected_current_frame (results (tick it)) = true
    /\ person_detected_previously (before it) = false
    /\ exists r rest,
         results (tick it) = r :: rest
         /\ boxes r <> []
         /\ n = List.length (boxes r).
Proof.
  intros st ticks i it n H I.
  destruct (iterations_nth ticks _ _ _ H) as [_ L].
  assert (A : In (Arrived n) (events_of (effects it))).
  { eapply in_events_of; [exact I|reflexivity]. }
  destruct (ret (tick it)) eqn:R.
  2:{ rewrite loop_body_read_failure in L by assumption.
      injection L as L _ _. rewrite <- L in A. destruct A. }
  destruct (loop_body_events _ _ _ _ _ R L) as (E & _ & _).
  rewrite E in A.
  destruct (detected_now (tick it)) eqn:D,
           (person_detected_previously (before it)) eqn:P;
    simpl in A; try (destruct A as [A|[]]; discriminate A); try destruct A.
  2: contradiction.
  injection H0 as <-.
  destruct (detected_now_results _ D) as (r & rest & E' & C & Pos).
  rewrite C. repeat split; try assumption.
  exists r, rest. repeat split; try assumption.
  intro B. rewrite B in Pos. simpl in Pos. lia.
Qed.

Lemma arrival_count_positive_witness :
  exists r rest,
    results (calm_tick 1 3 1700000000) = r :: rest
    /\ boxes r <> []
    /\ 3%nat = List.length (boxes r).
Proof.
  refine (proj2 (proj2 (proj2 (arrival_count_positive
                   initial_state [calm_tick 1 3 1700000000] 0 _ 3 eq_refl _)))).
  simpl. auto.
Defined.

(** ** C8: snapshot file names *)

Lemma digit_inj (n m : N) : digit n = digit m -> (n mod 10 = m mod 10)%N.
Proof.
  unfold digit. intro H. apply (f_equal N_of_ascii) in H.
  assert (Bn : (n mod 10 < 10)%N) by (apply N.mod_lt; discriminate).
  assert (Bm : (m mod 10 < 10)%N) by (apply N.mod_lt; discriminate).
  rewrite !N_ascii_embedding in H by lia. lia.
Qed.

(** Zero-padded numbers of the same width in front of two strings are equal
    only if the numbers and the strings are. *)
Lemma zero_padded_inj (w : nat) :
  forall (n m : N) (acc acc' : string),
    (n < 10 ^ N.of_nat w)%N -> (m < 10 ^ N.of_nat w)%N ->
    zero_padded w n acc = zero_padded w m acc' ->
    n = m /\ acc = acc'.
Proof.
  induction w as [|w IH]; intros n m acc acc' Bn Bm H.
  - simpl in *. split; [lia|exact H].
  - rewrite Nat2N.inj_succ, N.pow_succ_r' in Bn, Bm.
    simpl in H.
    apply IH in H; try (apply N.Div0.div_lt_upper_bound; assumption).
    destruct H as [Q S]. injection S as D ->. split; [|reflexivity].
    apply digit_inj in D.
    rewrite (N.div_mod n 10), (N.div_mod m 10) by discriminate.
    now rewrite Q, D.
Qed.

Lemma append_inj_l (p s1 s2 : string) :
  (p ++ s1 = p ++ s2)%string -> s1 = s2.
Proof.
  induction p as [|c p IH]; simpl; intro H; [exact H|].
  injection H as H. auto.
Qed.

(** The file name, with the slice carried out: of the six digits of the
    microsecond the first three remain, the milliseconds. *)
Lemma photo_filename_digits (d : datetime) :
  photo_filename d =
    ("detected_persons/person_"
    ++ zero_padded 4 (year d)
        (zero_padded 2 (month d)
          (zero_padded 2 (day d)
            (String "_"
              (zero_padded 2 (hour d)
                (zero_padded 2 (minute d)
                  (zero_padded 2 (second d)
                    (String "_"
                      (zero_padded 3 (microsecond d / 1000) ".jpg")))))))))%string.
Proof.
  replace (microsecond d / 1000)%N with (microsecond d / 10 / 10 / 10)%N
    by (now rewrite !N.Div0.div_div).
  cbv -[digit N.div year month day hour minute second microsecond].
  reflexivity.
Qed.

Lemma valid_datetime_bounds (d : datetime) :
  valid_datetime d = true ->
  (year d < 10 ^ N.of_nat 4 /\ month d < 10 ^ N.of_nat 2
   /\ day d < 10 ^ N.of_nat 2 /\ hour d < 10 ^ N.of_nat 2
   /\ minute d < 10 ^ N.of_nat 2 /\ second d < 10 ^ N.of_nat 2
   /\ microsecond d / 1000 < 10 ^ N.of_nat 3)%N.
Proof.
  unfold valid_datetime. rewrite !andb_true_iff.
  rewrite !N.leb_le, !N.ltb_lt.
  change (10 ^ N.of_nat 4)%N with 10000%N.
  change (10 ^ N.of_nat 2)%N with 100%N.
  change (10 ^ N.of_nat 3)%N with 1000%N.
  intros H.
  assert (microsecond d / 1000 < 1000)%N
    by (apply N.Div0.div_lt_upper_bound; lia).
  lia.
Qed.

(** A reading of the model of [strftime] and of the slice. *)
Example photo_filename_noon :
  photo_filename noon = "detected_persons/person_20240517_120000_123.jpg".
Proof. reflexivity. Qed.

(** C8, amended.  Two snapshots get the same file name exactly when their
    clock readings agree down to the millisecond; so two arrivals in the
    same second get distinct file names whenever their readings differ in
    the millisecond. *)
Theorem photo_filename_unique_to_the_millisecond :
  forall d1 d2 : datetime,
    valid_datetime d1 = true -> valid_datetime d2 = true ->
    (photo_filename d1 = photo_filename d2 <-> same_millisecond d1 d2)
    /\ ((microsecond d1 / 1000 <> microsecond d2 / 1000)%N ->
        photo_filename d1 <> photo_filename d2).
Proof.
  intros d1 d2 V1 V2.
  apply valid_datetime_bounds in V1, V2.
  destruct V1 as (Y1 & Mo1 & D1 & H1 & Mi1 & S1 & U1).
  destruct V2 as (Y2 & Mo2 & D2 & H2 & Mi2 & S2 & U2).
  assert (Iff : photo_filename d1 = photo_filename d2 <-> same_millisecond d1 d2).
  { rewrite !photo_filename_digits. unfold same_millisecond. split.
    - intro E. apply append_inj_l in E.
      apply zero_padded_inj in E; try assumption. destruct E as [EY E].
      apply zero_padded_inj in E; try assumption. destruct E as [EMo E].
      apply zero_padded_inj in E; try assumption. destruct E as [ED E].
      apply (append_inj_l "_") in E.
      apply zero_padded_inj in E; try assumption. destruct E as [EH E].
      apply zero_padded_inj in E; try assumption. destruct E as [EMi E].
      apply zero_padded_inj in E; try assumption. destruct E as [ES E].
      apply (append_inj_l "_") in E.
      apply zero_padded_inj in E; try assumption. destruct E as [EU _].
      repeat split; assumption.
    - intros (-> & -> & -> & -> & -> & -> & ->). reflexivity. }
  split; [exact Iff|].
  intros Ne E. apply Iff in E. apply Ne. apply E.
Qed.

Lemma photo_filename_unique_to_the_millisecond_witness :
  photo_filename noon <> photo_filename a_millisecond_after_noon.
Proof.
  refine (proj2 (photo_filename_unique_to_the_millisecond
                   noon a_millisecond_after_noon eq_refl eq_refl) _).
  vm_compute. discriminate.
Defined.

(** C8 as the specification words it does not hold: two distinct clock
    readings in the same second, half a millisecond apart, give the same
    file name. *)
Lemma photo_filename_counterexample :
  valid_datetime noon = true /\ valid_datetime just_after_noon = true
  /\ second noon = second just_after_noon
  /\ microsecond noon <> microsecond just_after_noon
  /\ noon <> just_after_noon
  /\ photo_filename noon = photo_filename just_after_noon.
Proof.
  repeat split; try reflexivity; discriminate.
Qed.

(** ** Leaving the loop (lines 86 to 89 and 160 to 170) *)

(** X1.  The exit test looks at the low eight bits of the key code only: it
    succeeds exactly for the codes congruent to [ord('q') = 113] modulo 256.
    So the [-1] that [cv2.waitKey] gives when no key is pressed never ends
    the loop, nor does an upper-case [Q], while a [q] carrying modifier
    flags above the low byte does. *)
Theorem quit_requested_low_byte :
  forall key : Z,
    (quit_requested key = true <-> (key mod 256 = 113)%Z)
    /\ quit_requested (-1) = false
    /\ quit_requested 81 = false
    /\ quit_requested (113 + 256 * key) = true.
Proof.
  intro key.
  assert (Low : forall k : Z, Z.land k 255 = (k mod 256)%Z).
  { intro k. change 255%Z with (Z.ones 8). now rewrite Z.land_ones by lia. }
  unfold quit_requested. rewrite !Low.
  split; [apply Z.eqb_eq|]. split; [reflexivity|]. split; [reflexivity|].
  apply Z.eqb_eq.
  rewrite (Z.mul_comm 256 key), Z.mod_add by lia. reflexivity.
Qed.

(** How a pass ends is decided by the camera and the keyboard alone. *)
Lemma loop_body_flow (st : State) (t : Tick) :
  snd (loop_body st t) =
    if negb (ret t) then Break
    else if quit_requested (waitKey t) then Break else Continue.
Proof.
  destruct (ret t) eqn:R; simpl.
  - destruct (loop_body_read_ok st t R) as (bes & st' & _ & L).
    rewrite L. simpl. unfold exit_check.
    now destruct (quit_requested (waitKey t)).
  - now rewrite loop_body_read_failure.
Qed.

Lemma release_not_in_loop_body (st : State) (t : Tick) :
  filter is_release (fst (fst (loop_body st t))) = [].
Proof.
  destruct (ret t) eqn:R.
  2:{ now rewrite loop_body_read_failure. }
  destruct (loop_body_read_ok st t R) as (bes & st' & T & L).
  rewrite L. simpl. rewrite !filter_app.
  assert (S : filter is_release (show st' t (detected_now t)) = [])
    by (destruct (detected_now t); piece).
  assert (X : filter is_release (fst (exit_check t)) = []) by piece.
  rewrite S, X, app_nil_r.
  destruct (detected_now t) eqn:D, (person_detected_previously st) eqn:P.
  - rewrite transition_steady in T by congruence. now injection T as <- _.
  - destruct (transition_arrival st t D P) as (r & rest & _ & E).
    rewrite E in T. injection T as T.
    assert (B : bes = fst (on_arrival st t r)) by now rewrite T.
    rewrite B, on_arrival_effects. simpl. rewrite filter_app.
    assert (A1 : filter is_release (fst (save_photo (annotated_frame st) t r)) = [])
      by piece.
    assert (A2 : filter is_release
                   (fst (send_notification (last_notification_time st)
                                           (time_time t) (notify t))) = [])
      by piece.
    now rewrite A1, A2.
  - rewrite transition_departure in T by assumption. now injection T as <- _.
  - rewrite transition_steady in T by congruence. now injection T as <- _.
Qed.

Lemma release_not_in_main_loop (ticks : list Tick) :
  forall st, filter is_release (fst (fst (main_loop st ticks))) = [].
Proof.
  induction ticks as [|t rest IH]; intro st; simpl; [reflexivity|].
  pose proof (release_not_in_loop_body st t) as B.
  destruct (loop_body st t) as [[es st'] fl]. simpl in B.
  destruct fl; simpl; try exact B.
  specialize (IH st'). destruct (main_loop st' rest) as [[es' st''] fl'].
  simpl in *. now rewrite filter_app, B, IH.
Qed.



(** X3.  The camera is released and the windows are closed exactly when the
    loop has been left: as long as a run is inside the loop its effects
    contain neither call, and once the loop is left the session ends with
    the four clean-up effects and nothing after them. *)
Theorem cleanup_exactly_when_loop_left :
  forall (ticks : list Tick),
    let es := fst (fst (main_loop initial_state ticks)) in
    let fl := snd (main_loop initial_state ticks) in
    filter is_release es = []
    /\ (fl = Break ->
        session ticks =
          es ++ [CapRelease; DestroyAllWindows;
                 Log INFO msg_released; Log INFO msg_script_end])
    /\ (fl = Continue ->
        session ticks = es /\ filter is_release (session ticks) = [])
    /\ (In CapRelease (session ticks) <-> fl = Break).
Proof.
  intro ticks. simpl.
  pose proof (release_not_in_main_loop ticks initial_state) as N.
  unfold session.
  destruct (main_loop initial_state ticks) as [[es st] fl]. simpl in *.
  split; [exact N|].
  assert (NI : ~ In CapRelease es).
  { intro X. assert (Y : In CapRelease (filter is_release es))
      by (apply filter_In; auto).
    rewrite N in Y. destruct Y. }
  destruct fl.
  - split; [discriminate|]. split; [now rewrite N|].
    split; [tauto | discriminate].
  - split; [reflexivity|]. split; [discriminate|].
    split; [reflexivity|]. intros _. apply in_or_app. right. now left.
  - split; [discriminate|]. split; [discriminate|].
    split; [tauto | discriminate].
Qed.

(** X4.  When the exit key is pressed in an iteration, that iteration is
    carried out to its end first (its arrival or departure is processed and
    the frame is shown), the key is logged, no further frame is read
    whatever the world would have offered next, and the session ends with
    the clean-up. *)
Theorem quit_key_ends_session :
  forall (earlier later : list Tick) (t : Tick) es st,
    main_loop initial_state earlier = (es, st, Continue) ->
    ret t = true ->
    quit_requested (waitKey t) = true ->
    exists branch st',
      transition st t = Some (branch, st')
      /\ session (earlier ++ t :: later) =
           es
           ++ (Read true :: branch ++ show st' t (detected_now t)
                 ++ [CallWaitKey; Log INFO msg_quit_key])
           ++ [CapRelease; DestroyAllWindows;
               Log INFO msg_released; Log INFO msg_script_end].
Proof.
  intros earlier later t es st M R K.
  destruct (loop_body_read_ok st t R) as (bes & st' & T & L).
  exists bes, st'. split; [exact T|].
  unfold session. rewrite (main_loop_app _ (t :: later) _ _ _ M). simpl.
  rewrite L. unfold exit_check. rewrite K. simpl.
  now rewrite <- app_assoc.
Qed.

Lemma quit_key_ends_session_witness :
  session ([calm_tick 1 0 1700000000]
           ++ quitting_tick 2 0 1700000001 :: [calm_tick 3 1 1700000002])
  = [Read true; CallImshow (Raw 1) returns; CallWaitKey]
    ++ [Read true; CallImshow (Raw 2) returns; CallWaitKey; Log INFO msg_quit_key]
    ++ [CapRelease; DestroyAllWindows;
        Log INFO msg_released; Log INFO msg_script_end].
Proof.
  destruct (quit_key_ends_session
              [calm_tick 1 0 1700000000] [calm_tick 3 1 1700000002]
              (quitting_tick 2 0 1700000001) _ _ eq_refl eq_refl eq_refl)
    as (branch & st' & T & S).
  reflexivity.
Defined.

(** ** Whole runs *)

Lemma steady_summary (st : State) (t : Tick) :
  ret t = true -> detected_now t = person_detected_previously st ->
  exists es,
    loop_body st t = (es, st, snd (exit_check t))
    /\ events_of es = []
    /\ filter is_photo_attempt es = []
    /\ popups_of es = [].
Proof.
  intros R D. pose proof (steady_pass st t R D) as L.
  eexists. split; [exact L|]. simpl.
  autorewrite with pieces. auto.
Qed.

(** What a pass adds to the counts of a run, whatever its branch. *)
Lemma loop_body_counts (st : State) (t : Tick) :
  let es := fst (fst (loop_body st t)) in
  let st' := snd (fst (loop_body st t)) in
  alternates (person_detected_previously st) (events_of es) = true
  /\ (forall evs, alternates (person_detected_previously st')  evs = true ->
        alternates (person_detected_previously st) (events_of es ++ evs) = true)
  /\ List.length (filter is_photo_attempt es)
     = List.length (filter is_arrival (events_of es))
  /\ List.length (popups_of es)
     = List.length (filter is_arrival (events_of es)).
Proof.
  destruct (ret t) eqn:R.
  2:{ rewrite loop_body_read_failure by assumption. simpl.
      repeat split; auto. }
  destruct (detected_now t) eqn:D, (person_detected_previously st) eqn:P.
  - destruct (steady_summary st t R) as (es & L & E & F & U); [congruence|].
    rewrite L. simpl. rewrite E, F, U, P. simpl. repeat split; auto.
  - destruct (summary_arrival st t R D P) as (es & st' & L & P' & _ & E & F & U).
    rewrite L. simpl. rewrite E, F, U, P'. simpl.
    repeat split; auto.
    unfold send_notification.
    now destruct (cooldown_over (time_time t) (last_notification_time st)),
                 (notify t).
  - destruct (summary_departure st t R D P) as (es & st' & L & P' & _ & E & F & U).
    rewrite L. simpl. rewrite E, F, U, P'. simpl. repeat split; auto.
  - destruct (steady_summary st t R) as (es & L & E & F & U); [congruence|].
    rewrite L. simpl. rewrite E, F, U, P. simpl. repeat split; auto.
Qed.

(** X5.  Arrivals and departures take turns in every run: starting without
    a person ([person_detected_previously = False]) the first presence event
    logged is an arrival, every arrival is followed by a departure before
    the next arrival, and every departure by an arrival before the next
    departure.  From a state with the flag set the same holds starting with
    a departure. *)
Theorem presence_events_alternate :
  forall (st : State) (ticks : list Tick),
    alternates (person_detected_previously st)
               (events_of (fst (fst (main_loop st ticks)))) = true.
Proof.
  intros st ticks. revert st.
  induction ticks as [|t rest IH]; intro st; simpl; [reflexivity|].
  pose proof (loop_body_counts st t) as (A & A' & _).
  destruct (loop_body st t) as [[es st'] fl]. simpl in *.
  destruct fl; simpl; try exact A.
  specialize (IH st').
  destruct (main_loop st' rest) as [[es' st''] fl']. simpl in *.
  rewrite events_of_app. now apply A'.
Qed.

(** X6.  In every run the snapshot attempts and the popup decisions are as
    many as the arrivals logged: each arrival makes exactly one call of
    [plot] and exactly one of delivering, failing to deliver or suppressing
    the popup, and no other iteration makes either. *)
Theorem one_snapshot_and_one_popup_decision_per_arrival :
  forall (st : State) (ticks : list Tick),
    let es := fst (fst (main_loop st ticks)) in
    List.length (filter is_photo_attempt es)
    = List.length (filter is_arrival (events_of es))
    /\ List.length (popups_of es)
       = List.length (filter is_arrival (events_of es)).
Proof.
  intros st ticks. revert st.
  induction ticks as [|t rest IH]; intro st; simpl; [auto|].
  pose proof (loop_body_counts st t) as (_ & _ & F & U).
  destruct (loop_body st t) as [[es st'] fl]. simpl in *.
  destruct fl; simpl; try (split; assumption).
  specialize (IH st').
  destruct (main_loop st' rest) as [[es' st''] fl']. simpl in *.
  destruct IH as [IF IU].
  rewrite events_of_app, popups_of_app, !filter_app, !length_app.
  split; congruence.
Qed.

(** ** What is written and what is shown (lines 110 to 115 and 147 to 157) *)

Lemma imwrite_in_save_photo af t r name img o :
  In (CallImwrite name img o) (fst (save_photo af t r)) ->
  plot t = returns
  /\ name = photo_filename (datetime_now t)
  /\ img = Plotted (frame t) (boxes r)
  /\ o = imwrite t
  /\ snd (save_photo af t r) = Some img.
Proof.
  unfold save_photo. destruct (plot t), (imwrite t); simpl; intro I;
    repeat (destruct I as [I|I]; try discriminate I); try contradiction;
    injection I as <- <- <-; auto.
Qed.

Lemma imwrite_not_in_send_notification last now o name img o' :
  ~ In (CallImwrite name img o') (fst (send_notification last now o)).
Proof. piece. Qed.

Lemma imwrite_not_in_show st t d name img o :
  ~ In (CallImwrite name img o) (show st t d).
Proof. destruct d; piece. Qed.

Lemma imwrite_not_in_exit_check t name img o :
  ~ In (CallImwrite name img o) (fst (exit_check t)).
Proof. piece. Qed.

(** X7.  Whatever [cv2.imwrite] is asked to write in an iteration is the
    picture drawn, in that same iteration, from the frame just read and the
    boxes of its first result; the file name is the one made from this
    iteration's clock reading; and that picture is what [annotated_frame]
    holds afterwards.  The call happens only in an arrival and only when
    [plot] has returned. *)
Theorem snapshot_is_of_the_current_frame :
  forall (st : State) (ticks : list Tick) (i : nat) (it : Iteration)
         (name : string) (img : Image) (o : Outcome),
    nth_error (iterations st ticks) i = Some it ->
    In (CallImwrite name img o) (effects it) ->
    exists r rest,
      results (tick it) = r :: rest
      /\ img = Plotted (frame (tick it)) (boxes r)
      /\ name = photo_filename (datetime_now (tick it))
      /\ o = imwrite (tick it)
      /\ plot (tick it) = returns
      /\ person_detected_previously (before it) = false
      /\ detected_now (tick it) = true
      /\ annotated_frame (after it) = Some img.
Proof.
  intros st0 ticks i it name img o H I.
  destruct (iterations_nth ticks _ _ _ H) as [_ L].
  set (st := before it) in *. set (t := tick it) in *.
  destruct (ret t) eqn:R.
  2:{ rewrite loop_body_read_failure in L by assumption.
      injection L as L _ _. rewrite <- L in I. simpl in I.
      intuition discriminate. }
  destruct (loop_body_read_ok st t R) as (bes & st' & T & L').
  rewrite L' in L. injection L as Le Ls _. rewrite <- Le in I. rewrite <- Ls.
  destruct I as [I|I]; [discriminate|].
  apply in_app_or in I. destruct I as [I|I].
  2:{ apply in_app_or in I. destruct I as [I|I].
      - now apply imwrite_not_in_show in I.
      - now apply imwrite_not_in_exit_check in I. }
  destruct (detected_now t) eqn:D, (person_detected_previously st) eqn:P.
  - rewrite transition_steady in T by congruence. injection T as <- _. destruct I.
  - destruct (transition_arrival st t D P) as (r & rest & E & T').
    rewrite T' in T. injection T as T.
    assert (B : bes = fst (on_arrival st t r)) by now rewrite T.
    assert (S' : st' = snd (on_arrival st t r)) by now rewrite T.
    rewrite B, on_arrival_effects in I. rewrite S', on_arrival_state.
    destruct I as [I|I]; [discriminate|].
    apply in_app_or in I. destruct I as [I|I].
    + apply imwrite_in_save_photo in I.
      destruct I as (Pl & -> & -> & -> & Af).
      exists r, rest. repeat split; assumption.
    + now apply imwrite_not_in_send_notification in I.
  - rewrite transition_departure in T by assumption.
    injection T as <- _. simpl in I. intuition discriminate.
  - rewrite transition_steady in T by congruence. injection T as <- _. destruct I.
Qed.

Lemma snapshot_is_of_the_current_frame_witness :
  exists r rest,
    results (calm_tick 4 2 1700000000) = r :: rest
    /\ Plotted 4 [O; O] = Plotted (frame (calm_tick 4 2 1700000000)) (boxes r).
Proof.
  destruct (snapshot_is_of_the_current_frame
              initial_state [calm_tick 4 2 1700000000] 0 _
              (photo_filename noon) (Plotted 4 [O; O]) returns eq_refl
              (or_intror (or_intror (or_intror (or_introl eq_refl)))))
    as (r & rest & E & Im & _).
  exists r, rest. split; assumption.
Defined.

Lemma shown_save_photo af t r : shown (fst (save_photo af t r)) = [].
Proof. piece. Qed.

Lemma shown_send_notification last now o :
  shown (fst (send_notification last now o)) = [].
Proof. piece. Qed.

(** X8.  In an iteration that reads a frame, at most one picture is put on
    the screen.  Without a detection it is the frame just read, as it is; in
    an arrival whose [plot] returned it is the picture just drawn from the
    frame just read. *)
Theorem display_of_the_current_frame :
  forall (st : State) (t : Tick),
    ret t = true ->
    let es := fst (fst (loop_body st t)) in
    (List.length (shown es) <= 1)%nat
    /\ (detected_now t = false -> shown es = [Raw (frame t)])
    /\ (detected_now t = true -> person_detected_previously st = false ->
        plot t = returns ->
        exists r rest,
          results t = r :: rest
          /\ shown es = [Plotted (frame t) (boxes r)]).
Proof.
  intros st t R es. subst es. split; [|split].
  - destruct (loop_body_read_ok st t R) as (bes & st' & T & L).
    rewrite L. simpl. rewrite !shown_app, shown_show, shown_exit_check, app_nil_r.
    assert (B : shown bes = []).
    { destruct (detected_now t) eqn:D, (person_detected_previously st) eqn:P.
      - rewrite transition_steady in T by congruence. now injection T as <- _.
      - destruct (transition_arrival st t D P) as (r & rest & _ & E).
        rewrite E in T. injection T as T.
        assert (B : bes = fst (on_arrival st t r)) by now rewrite T.
        rewrite B, on_arrival_effects. simpl.
        now rewrite shown_app, shown_save_photo, shown_send_notification.
      - rewrite transition_departure in T by assumption. now injection T as <- _.
      - rewrite transition_steady in T by congruence. now injection T as <- _. }
    rewrite B. simpl.
    destruct (if detected_now t then annotated_frame st'
              else Some (Raw (frame t))); simpl; lia.
  - intro D. now apply absent_shows_raw_frame.
  - intros D P Pl.
    destruct (arrival_pass st t R D P) as (r & rest & E & L).
    exists r, rest. split; [exact E|].
    rewrite L. simpl.
    rewrite !shown_app, shown_save_photo, shown_send_notification, shown_show,
      shown_exit_check.
    unfold arrival_state, save_photo. simpl. rewrite Pl.
    now destruct (imwrite t).
Qed.

Lemma display_of_the_current_frame_witness :
  shown (fst (fst (loop_body initial_state (calm_tick 9 0 1700000000))))
  = [Raw 9].
Proof.
  exact (proj1 (proj2 (display_of_the_current_frame
                         initial_state (calm_tick 9 0 1700000000) eq_refl))
               eq_refl).
Defined.

(** ** Failures stay where they happen *)

(** X9.  Presence tracking and the decision to stay in the loop depend on
    the camera, the detector and the keyboard only: two iterations that
    agree on [cap.read()]'s flag, on the detector's results and on the key,
    run from the same state, log the same presence events, leave the same
    presence flag and end the same way, whatever the clocks read and whether
    or not [plot], [cv2.imwrite], [notification.notify] and [cv2.imshow]
    raise. *)
Theorem tracking_is_independent_of_side_effects :
  forall (st : State) (t t' : Tick),
    ret t = ret t' -> results t = results t' -> waitKey t = waitKey t' ->
    snd (loop_body st t) = snd (loop_body st t')
    /\ person_detected_previously (snd (fst (loop_body st t)))
       = person_detected_previously (snd (fst (loop_body st t')))
    /\ events_of (fst (fst (loop_body st t)))
       = events_of (fst (fst (loop_body st t'))).
Proof.
  intros st t t' R Rs K.
  split.
  - now rewrite !loop_body_flow, R, K.
  - destruct (ret t) eqn:Rt.
    + symmetry in R.
      destruct (loop_body st t) as [[es s1] f1] eqn:L.
      destruct (loop_body st t') as [[es' s1'] f1'] eqn:L'.
      destruct (loop_body_events _ _ _ _ _ Rt L) as (E & P & _).
      destruct (loop_body_events _ _ _ _ _ R L') as (E' & P' & _).
      simpl. rewrite E, E', P, P'.
      unfold detected_now, detection_count. now rewrite Rs.
    + symmetry in R. now rewrite !loop_body_read_failure by assumption.
Qed.

Lemma tracking_is_independent_of_side_effects_witness :
  events_of (fst (fst (loop_body initial_state (calm_tick 1 2 1700000000))))
  = events_of (fst (fst (loop_body initial_state (stormy_tick 1 2 3)))).
Proof.
  exact (proj2 (proj2 (tracking_is_independent_of_side_effects
                         initial_state (calm_tick 1 2 1700000000)
                         (stormy_tick 1 2 3) eq_refl eq_refl eq_refl))).
Defined.

(** ** The recorded notification time (lines 75 and 129) *)

Lemma last_unchanged_without_delivery (st : State) (t : Tick) es st' fl :
  loop_body st t = (es, st', fl) ->
  ~ In (CallNotify returns) es ->
  last_notification_time st' = last_notification_time st.
Proof.
  intros L NI. destruct (ret t) eqn:R.
  2:{ rewrite loop_body_read_failure in L by assumption. now injection L as _ <- _. }
  destruct (detected_now t) eqn:D, (person_detected_previously st) eqn:P.
  - rewrite steady_pass in L by congruence. now injection L as _ <- _.
  - destruct (arrival_pass st t R D P) as (r & rest & E & L').
    rewrite L' in L. injection L as <- <- _. simpl.
    unfold send_notification in *.
    destruct (cooldown_over (time_time t) (last_notification_time st));
      [|reflexivity].
    destruct (notify t); [|reflexivity].
    exfalso. apply NI. simpl. right. right.
    rewrite !in_app_iff. simpl. tauto.
  - rewrite departure_pass in L by assumption. now injection L as _ <- _.
  - rewrite steady_pass in L by congruence. now injection L as _ <- _.
Qed.

(** X10.  [last_notification_time] is the clock reading of the most recent
    delivered popup of the run: an iteration before which no popup has been
    delivered finds the value the run started with, and an iteration after a
    delivery, with no delivery in between, finds the clock reading of that
    delivery.  Suppressed popups and failed deliveries leave no trace in
    it. *)
Theorem last_notification_time_is_last_delivery :
  forall (st : State) (ticks : list Tick) (i : nat) (it : Iteration),
    nth_error (iterations st ticks) i = Some it ->
    ((forall k itk, (k < i)%nat ->
        nth_error (iterations st ticks) k = Some itk ->
        ~ In (CallNotify returns) (effects itk)) ->
     last_notification_time (before it) = last_notification_time st)
    /\ (forall j it1,
          (j < i)%nat ->
          nth_error (iterations st ticks) j = Some it1 ->
          In (CallNotify returns) (effects it1) ->
          (forall k itk, (j < k < i)%nat ->
             nth_error (iterations st ticks) k = Some itk ->
             ~ In (CallNotify returns) (effects itk)) ->
          last_notification_time (before it) = time_time (tick it1)).
Proof.
  intros st ticks i. induction i as [|i IH]; intros it H.
  - split.
    + intros _. now rewrite (iterations_chain ticks _ _ _ H).
    + intros j it1 Lt. lia.
  - pose proof (iterations_chain ticks _ _ _ H) as (it' & H' & B & _).
    destruct (iterations_nth ticks _ _ _ H') as [_ L'].
    destruct (IH it' H') as [IHa IHb]. rewrite B. split.
    + intros No.
      rewrite (last_unchanged_without_delivery _ _ _ _ _ L')
        by (apply (No i); [lia|exact H']).
      apply IHa. intros k itk Lt. apply No. lia.
    + intros j it1 Lt H1 I1 No.
      destruct (Nat.eq_dec j i) as [->|Ne].
      * rewrite H1 in H'. injection H' as <-.
        destruct (notify_in_loop_body _ _ _ _ _ _ L' I1) as (_ & _ & Rec).
        now apply Rec.
      * rewrite (last_unchanged_without_delivery _ _ _ _ _ L')
          by (apply (No i); [lia|exact H']).
        apply (IHb j it1); try assumption; [lia|].
        intros k itk Lt'. apply No. lia.
Qed.

Lemma last_notification_time_is_last_delivery_witness :
  exists it,
    nth_error (iterations initial_state back_in_two_seconds) 2 = Some it
    /\ last_notification_time (before it) = 100%Q.
Proof.
  eexists. split; [reflexivity|].
  refine (proj2 (last_notification_time_is_last_delivery
                   initial_state back_in_two_seconds 2 _ eq_refl)
                0%nat _ _ eq_refl _ _).
  - lia.
  - simpl. auto 10.
  - intros k itk Lt Hk. assert (k = 1)%nat as -> by lia.
    simpl in Hk. injection Hk as <-. simpl. intuition discriminate.
Defined.

(** ** The start-up (lines 9 to 79) *)

Lemma person_class_id_skips (before after : list (Z * string)) (id : Z) :
  Forall (fun p => snd p <> "person") before ->
  person_class_id (before ++ (id, "person") :: after) = Some id.
Proof.
  induction 1 as [|[k name] before Hn _ IH]; simpl; [reflexivity|].
  simpl in Hn. apply String.eqb_neq in Hn. now rewrite Hn.
Qed.

(** X11.  The class the detector is asked for is the first entry of
    [model.names] called ['person'], whatever its number (the number [0]
    included): the search succeeds with [id] exactly when [id] is paired
    with ['person'] and no earlier entry is called ['person'], and it
    fails exactly when no entry is. *)
Theorem person_class_id_first_match :
  forall items : list (Z * string),
    (forall id,
        person_class_id items = Some id <->
        exists before after,
          items = before ++ (id, "person") :: after
          /\ Forall (fun p => snd p <> "person") before)
    /\ (person_class_id items = None <->
        Forall (fun p => snd p <> "person") items).
Proof.
  induction items as [|[k name] rest [IHs IHn]].
  - split; [|split; [constructor | reflexivity]].
    intro id. split; [discriminate|].
    intros (before & after & E & _). destruct before; discriminate.
  - simpl. destruct (String.eqb name "person") eqn:N.
    + apply String.eqb_eq in N. subst name. split.
      * intro id. split.
        -- intro H. injection H as <-. exists [], rest. split; [reflexivity|constructor].
        -- intros (before & after & E & F).
           destruct before as [|[k' n'] before].
           ++ injection E as -> _. reflexivity.
           ++ injection E as _ <- _. inversion F as [|? ? Hn _]. now elim Hn.
      * split; [discriminate|]. intro F. inversion F as [|? ? Hn _]. now elim Hn.
    + apply String.eqb_neq in N. split.
      * intro id. rewrite IHs. split.
        -- intros (before & after & -> & F).
           exists ((k, name) :: before), after. split; [reflexivity|].
           now constructor.
        -- intros (before & after & E & F).
           destruct before as [|[k' n'] before].
           ++ injection E as _ -> _. now elim N.
           ++ injection E as _ _ ->. inversion F. eauto.
      * rewrite IHn. split; intro F; [now constructor | now inversion F].
Qed.

(** X12.  The loop is reached exactly when the detector loads, its label
    set has a ['person'] class and the camera opens.  Otherwise the script
    logs one error and exits at the first check that fails: no frame is ever
    read and the clean-up of lines 167 to 170 is not run, whatever the world
    would have offered to the loop. *)
Theorem startup_reaches_loop_iff :
  forall (b : Boot),
    (forall id,
        snd (startup b) = Some id <->
        exists names,
          model_names b = Some names
          /\ person_class_id names = Some id
          /\ isOpened b = true)
    /\ (snd (startup b) = None ->
        (exists pre m, fst (startup b) = pre ++ [StartupLog ERROR m; Exit])
        /\ forall ticks, program b ticks = map AtStartup (fst (startup b)))
    /\ (snd (startup b) <> None ->
        ~ In Exit (fst (startup b))
        /\ forall ticks,
             program b ticks =
               map AtStartup (fst (startup b)) ++ map InLoop (session ticks)).
Proof.
  intro b. unfold program, startup.
  destruct (model_names b) as [names|]; simpl.
  2:{ split; [|split].
      - intro id. split; [discriminate|]. intros (n & E & _). discriminate.
      - intros _. split; [|intro; rewrite ?app_nil_r; reflexivity].
        exists (startup_logging b ++ [LoadModel raises]), msg_model_failed.
        reflexivity.
      - intro H. now elim H. }
  destruct (person_class_id names) as [id0|] eqn:PC; simpl.
  2:{ split; [|split].
      - intro id. split; [discriminate|].
        intros (n & E & P & _). injection E as <-. congruence.
      - intros _. split; [|intro; rewrite ?app_nil_r; reflexivity].
        exists (startup_logging b
                ++ [LoadModel returns; StartupLog INFO msg_model_loaded]),
               msg_no_person_class.
        reflexivity.
      - intro H. now elim H. }
  destruct (isOpened b); simpl.
  - split; [|split].
    + intro id. split.
      * intro H. injection H as <-. exists names. auto.
      * intros (n & E & P & _). injection E as <-. congruence.
    + discriminate.
    + intros _. split; [|reflexivity].
      intro I. repeat (destruct I as [I|I]; try discriminate I). exact I.
  - split; [|split].
    + intro id. split; [discriminate|]. intros (n & _ & _ & O). discriminate.
    + intros _. split; [|intro; rewrite ?app_nil_r; reflexivity].
      exists (startup_logging b
              ++ [LoadModel returns; StartupLog INFO msg_model_loaded;
                  StartupLog INFO (msg_target_class id0); VideoCapture false]),
             msg_camera_failed.
      reflexivity.
    + intro H. now elim H.
Qed.

(** X13.  The camera is opened only after the detector has loaded and its
    ['person'] class has been found: a start-up that fails at either of
    these two checks never calls [cv2.VideoCapture]. *)
Theorem camera_opened_after_detector_checks :
  forall (b : Boot),
    (exists opened, In (VideoCapture opened) (fst (startup b))) <->
    exists names id,
      model_names b = Some names /\ person_class_id names = Some id.
Proof.
  intro b. unfold startup.
  destruct (model_names b) as [names|]; simpl.
  2:{ split.
      - intros [o I]. repeat (destruct I as [I|I]; try discriminate I).
        destruct I.
      - intros (n & id & E & _). discriminate. }
  destruct (person_class_id names) as [id0|] eqn:PC; simpl.
  2:{ split.
      - intros [o I]. repeat (destruct I as [I|I]; try discriminate I).
        destruct I.
      - intros (n & id & E & P). injection E as <-. congruence. }
  split.
  - intros _. eauto.
  - intros _. exists (isOpened b).
    destruct (isOpened b); simpl; auto 12.
Qed.

(** ** File names (lines 15, 103 and 113) *)

Lemma log_filename_digits (d : datetime) :
  log_filename d =
    ("logs/detection_"
     ++ zero_padded 4 (year d)
          (zero_padded 2 (month d) (zero_padded 2 (day d) ".log")))%string.
Proof.
  cbv -[digit N.div year month day]. reflexivity.
Qed.

(** X14.  The log file is named after the day the script was started: two
    starts write to the same file exactly when they happen on the same
    calendar day, at whatever time of the day. *)
Theorem log_file_per_day :
  forall d1 d2 : datetime,
    valid_datetime d1 = true -> valid_datetime d2 = true ->
    (log_filename d1 = log_filename d2 <->
     year d1 = year d2 /\ month d1 = month d2 /\ day d1 = day d2).
Proof.
  intros d1 d2 V1 V2.
  apply valid_datetime_bounds in V1, V2.
  destruct V1 as (Y1 & Mo1 & D1 & _). destruct V2 as (Y2 & Mo2 & D2 & _).
  rewrite !log_filename_digits. split.
  - intro E. apply append_inj_l in E.
    apply zero_padded_inj in E; try assumption. destruct E as [EY E].
    apply zero_padded_inj in E; try assumption. destruct E as [EMo E].
    apply zero_padded_inj in E; try assumption. destruct E as [ED _].
    auto.
  - intros (-> & -> & ->). reflexivity.
Qed.

Lemma log_file_per_day_witness :
  log_filename noon = log_filename a_millisecond_after_noon
  /\ log_filename noon <> log_filename new_year.
Proof.
  split.
  - apply (log_file_per_day noon a_millisecond_after_noon eq_refl eq_refl).
    repeat split.
  - intro E.
    apply (log_file_per_day noon new_year eq_refl eq_refl) in E.
    destruct E as [E _]. discriminate E.
Defined.

Lemma ascii_compare_refl (c : ascii) : Ascii.compare c c = Eq.
Proof. unfold Ascii.compare. apply N.compare_refl. Qed.

Lemma ascii_compare_digit (n m : N) :
  (n mod 10 < m mod 10)%N -> Ascii.compare (digit n) (digit m) = Lt.
Proof.
  intro H. unfold Ascii.compare, digit.
  assert (Bn : (n mod 10 < 10)%N) by (apply N.mod_lt; discriminate).
  assert (Bm : (m mod 10 < 10)%N) by (apply N.mod_lt; discriminate).
  rewrite !N_ascii_embedding by lia. apply N.compare_lt_iff. lia.
Qed.

Lemma compare_same_prefix (p a a' : string) :
  String.compare (p ++ a) (p ++ a') = String.compare a a'.
Proof.
  induction p as [|c p IH]; simpl; [reflexivity|].
  now rewrite ascii_compare_refl.
Qed.

Lemma compare_same_head (c : ascii) (a a' : string) :
  String.compare (String c a) (String c a') = String.compare a a'.
Proof. simpl. now rewrite ascii_compare_refl. Qed.

Lemma compare_zero_padded_same (w : nat) :
  forall (n : N) (a a' : string),
    String.compare (zero_padded w n a) (zero_padded w n a')
    = String.compare a a'.
Proof.
  induction w as [|w IH]; intros n a a'; simpl; [reflexivity|].
  rewrite IH. simpl. now rewrite ascii_compare_refl.
Qed.

(** Of two numbers padded to the same width the smaller one comes first in
    the order of strings, whatever follows them. *)
Lemma compare_zero_padded_lt (w : nat) :
  forall (n m : N) (a a' : string),
    (n < m)%N -> (m < 10 ^ N.of_nat w)%N ->
    String.compare (zero_padded w n a) (zero_padded w m a') = Lt.
Proof.
  induction w as [|w IH]; intros n m a a' Lt Bm.
  - simpl in Bm. lia.
  - rewrite Nat2N.inj_succ, N.pow_succ_r' in Bm. simpl.
    assert (Le : (n / 10 <= m / 10)%N) by (apply N.Div0.div_le_mono; lia).
    apply N.lt_eq_cases in Le. destruct Le as [Lt'|Eq'].
    + apply IH; [exact Lt'|]. now apply N.Div0.div_lt_upper_bound.
    + rewrite Eq', compare_zero_padded_same. simpl.
      rewrite ascii_compare_digit; [reflexivity|].
      pose proof (N.div_mod n 10). pose proof (N.div_mod m 10). lia.
Qed.

(** One field of the time stamp: smaller decides, equal passes on. *)
Ltac field_step H :=
  let E := fresh "E" in
  destruct H as [H|[E H]];
  [ apply compare_zero_padded_lt; assumption
  | rewrite E, compare_zero_padded_same ].

(** X15.  Snapshot file names sort by time: of two snapshots the one whose
    clock reading is earlier, compared down to the millisecond, has the file
    name that comes first in the order of strings. *)
Theorem photo_filenames_sort_by_time :
  forall d1 d2 : datetime,
    valid_datetime d1 = true -> valid_datetime d2 = true ->
    lex_lt (millisecond_key d1) (millisecond_key d2) ->
    String.compare (photo_filename d1) (photo_filename d2) = Lt.
Proof.
  intros d1 d2 V1 V2 H.
  apply valid_datetime_bounds in V2.
  destruct V2 as (Y2 & Mo2 & D2 & H2 & Mi2 & S2 & U2).
  rewrite !photo_filename_digits, compare_same_prefix.
  unfold millisecond_key in H. simpl in H.
  field_step H. field_step H. field_step H.
  rewrite compare_same_head.
  field_step H. field_step H. field_step H.
  rewrite compare_same_head.
  destruct H as [H|[_ []]].
  apply compare_zero_padded_lt; assumption.
Qed.

Lemma photo_filenames_sort_by_time_witness :
  String.compare (photo_filename noon) (photo_filename new_year) = Lt.
Proof.
  apply (photo_filenames_sort_by_time noon new_year eq_refl eq_refl).
  vm_compute. left. reflexivity.
Defined.

(** ** While a person stays in view (lines 100, 140 and 147 to 157) *)


